(** * underbase-cli: a shallow embedding of [src/cli.ts]

    The command-line front end of the underbase migration runner: it merges
    command-line options with a config file, discovers version-named entries
    of the migrations directory, registers them with the runner, optionally
    dumps the database and asks the runner to migrate.

    The runner itself ([migrator], package [underbase]), [yargs], [fs],
    [path] and [child_process] are libraries: their calls are recorded as
    events, their answers come from a [World]. *)

From Stdlib Require Import ZArith NArith List String Ascii Bool Lia.
From Stdlib Require Import DecimalFacts DecimalPos DecimalN DecimalString.
Import ListNotations.
Local Open Scope string_scope.

(** ** JavaScript values, numbers and strings *)

Module Js.

(** A string is a sequence of code units; one [ascii] stands for one code
    unit in the range 0..255. *)

Definition code (c : ascii) : N := N_of_ascii c.

Definition is_digit (c : ascii) : bool := ((48 <=? code c) && (code c <=? 57))%N.

(** Line terminators are excluded by the regular-expression dot. *)
Definition is_line_terminator (c : ascii) : bool :=
  ((code c =? 10) || (code c =? 13))%N.

(** White space and line terminators skipped by [parseFloat]. *)
Definition is_white (c : ascii) : bool :=
  ((9 <=? code c) && (code c <=? 13) || (code c =? 32) || (code c =? 160))%N.

Fixpoint take (n : nat) (s : string) : string :=
  match n, s with
  | S k, String c r => String c (take k r)
  | _, _ => ""
  end.

Fixpoint drop (n : nat) (s : string) : string :=
  match n, s with
  | S k, String _ r => drop k r
  | _, _ => s
  end.

Fixpoint zeros (n : nat) : string :=
  match n with
  | O => ""
  | S k => String "0" (zeros k)
  end.

Definition is_empty (s : string) : bool :=
  match s with
  | "" => true
  | _ => false
  end.

Fixpoint all_digits (s : string) : bool :=
  match s with
  | "" => true
  | String c r => is_digit c && all_digits r
  end.

(** Decimal digits of a natural number, no leading zero ("0" for zero). *)
Definition digits (n : N) : string := NilZero.string_of_uint (N.to_uint n).

(** Value of a digit string (non-digits never reach it). *)
Fixpoint digits_value (acc : N) (s : string) : N :=
  match s with
  | "" => acc
  | String c r => digits_value (10 * acc + (code c - 48)) r
  end.

(** Trailing zeros of a digit string: what is left and how many went. *)
Fixpoint strip_zeros (s : string) : string * nat :=
  match s with
  | "" => ("", O)
  | String c r =>
      let '(r', z) := strip_zeros r in
      if is_empty r' && Ascii.eqb c "0" then ("", S z) else (String c r', z)
  end.

(** *** Numbers

    A Number is kept as the decimal it prints as: [Dec m e] is [m * 10^e].
    The shortest decimal form of a double determines it, so [===] is equality
    of the decimals; this is exact for literals of up to 15 significant
    digits, which covers every two-digit version name.  Arithmetic on the
    decimal is exact: [toFixed] rounds the decimal itself, where a double
    that is not that decimal may round a tie (x.x5) the other way; the form
    of the result is the same.  Zero has one sign. *)

Inductive number : Type :=
| NaN
| Inf (negative : bool)
| Dec (m : Z) (e : Z).

Definition of_N (n : N) : number := Dec (Z.of_N n) 0.

(** [a === b] on Numbers. *)
Definition num_eqb (a b : number) : bool :=
  match a, b with
  | Dec m1 e1, Dec m2 e2 =>
      if (e1 <=? e2)%Z then (m1 =? m2 * 10 ^ (e2 - e1))%Z
      else (m1 * 10 ^ (e1 - e2) =? m2)%Z
  | Inf s1, Inf s2 => Bool.eqb s1 s2
  | _, _ => false
  end.

Definition is_zero (a : number) : bool :=
  match a with
  | Dec m _ => (m =? 0)%Z
  | _ => false
  end.

(** [0 <= a] *)
Definition num_nonneg (a : number) : bool :=
  match a with
  | Dec m _ => (0 <=? m)%Z
  | Inf s => negb s
  | NaN => false
  end.

(** [|m * 10^e| >= 10^21], for [0 <= m]. *)
Definition ge_1e21 (m e : Z) : bool :=
  if (0 <=? e)%Z then (10 ^ 21 <=? m * 10 ^ e)%Z
  else (10 ^ (21 - e) <=? m)%Z.

(** Finite and below 10^21 in magnitude: the range in which [toFixed]
    prints fixed-point notation. *)
Definition fixed_range (a : number) : bool :=
  match a with
  | Dec m e => negb (ge_1e21 (Z.abs m) e)
  | _ => false
  end.

(** Number::toString(x), radix 10. *)
Definition number_to_string (x : number) : string :=
  match x with
  | NaN => "NaN"
  | Inf false => "Infinity"
  | Inf true => "-Infinity"
  | Dec m e =>
      if (m =? 0)%Z then "0"
      else
        let '(ds, z) := strip_zeros (digits (Z.abs_N m)) in
        let k := Z.of_nat (String.length ds) in
        let n := (k + Z.of_nat z + e)%Z in
        let body :=
          if ((k <=? n) && (n <=? 21))%Z then ds ++ zeros (Z.to_nat (n - k))
          else if ((0 <? n) && (n <=? 21))%Z then
            take (Z.to_nat n) ds ++ "." ++ drop (Z.to_nat n) ds
          else if ((-6 <? n) && (n <=? 0))%Z then
            "0." ++ zeros (Z.to_nat (- n)) ++ ds
          else
            let ex := (n - 1)%Z in
            let exs := (if (ex <? 0)%Z then "-" else "+") ++ digits (Z.abs_N ex) in
            if (k =? 1)%Z then ds ++ "e" ++ exs
            else take 1 ds ++ "." ++ drop 1 ds ++ "e" ++ exs in
        (if (m <? 0)%Z then "-" else "") ++ body
  end.

(** The integer [n] for which [n / 10 - m * 10^e] is closest to zero, the
    larger one on a tie ([0 <= m]). *)
Definition tenths (m e : Z) : N :=
  if (-1 <=? e)%Z then Z.to_N (m * 10 ^ (e + 1))
  else let d := (10 ^ (- e - 1))%Z in Z.to_N ((2 * m + d) / (2 * d)).

(** Number.prototype.toFixed(1). *)
Definition toFixed1 (x : number) : string :=
  match x with
  | Dec m e =>
      let s := if (m <? 0)%Z then "-" else "" in
      let a := Z.abs m in
      if ge_1e21 a e then s ++ number_to_string (Dec a e)
      else
        let n := tenths a e in
        let md := if (n =? 0)%N then "0" else digits n in
        let md := if (String.length md <=? 1)%nat
                  then zeros (2 - String.length md) ++ md else md in
        let k := String.length md in
        s ++ take (k - 1) md ++ "." ++ drop (k - 1) md
  | _ => number_to_string x
  end.

Fixpoint trim_start (s : string) : string :=
  match s with
  | String c r => if is_white c then trim_start r else s
  | "" => ""
  end.

Fixpoint span_digits (s : string) : string * string :=
  match s with
  | String c r =>
      if is_digit c then let '(d, t) := span_digits r in (String c d, t)
      else ("", s)
  | "" => ("", "")
  end.

Definition read_sign (s : string) : bool * string :=
  match s with
  | String "-" r => (true, r)
  | String "+" r => (false, r)
  | _ => (false, s)
  end.

(** [parseFloat] on a string: the longest prefix of the trimmed input that
    is a StrDecimalLiteral, [NaN] when there is none. *)
Definition parseFloat_string (input : string) : number :=
  let '(neg, s) := read_sign (trim_start input) in
  if prefix "Infinity" s then Inf neg
  else
    let '(ip, s1) := span_digits s in
    let '(fp, s2) :=
      match s1 with
      | String "." r => span_digits r
      | _ => ("", s1)
      end in
    if is_empty ip && is_empty fp then NaN
    else
      let ex :=
        match s2 with
        | String c r =>
            if Ascii.eqb c "e" || Ascii.eqb c "E" then
              let '(eneg, r1) := read_sign r in
              let '(ed, _) := span_digits r1 in
              if is_empty ed then 0%Z
              else if eneg then (- Z.of_N (digits_value 0 ed))%Z
              else Z.of_N (digits_value 0 ed)
            else 0%Z
        | "" => 0%Z
        end in
      let m := Z.of_N (digits_value 0 (ip ++ fp)) in
      Dec (if neg then (- m)%Z else m) (ex - Z.of_nat (String.length fp)).

(** *** Values *)

Inductive value : Type :=
| VUndefined
| VNull
| VBool (b : bool)
| VNum (n : number)
| VStr (s : string).

Definition ToBoolean (v : value) : bool :=
  match v with
  | VUndefined | VNull => false
  | VBool b => b
  | VNum NaN => false
  | VNum n => negb (is_zero n)
  | VStr s => negb (is_empty s)
  end.

Definition ToString (v : value) : string :=
  match v with
  | VUndefined => "undefined"
  | VNull => "null"
  | VBool true => "true"
  | VBool false => "false"
  | VNum n => number_to_string n
  | VStr s => s
  end.

(** [a === b] *)
Definition strict_eq (a b : value) : bool :=
  match a, b with
  | VUndefined, VUndefined => true
  | VNull, VNull => true
  | VBool x, VBool y => Bool.eqb x y
  | VNum x, VNum y => num_eqb x y
  | VStr x, VStr y => String.eqb x y
  | _, _ => false
  end.

(** [a || b] *)
Definition or (a b : value) : value := if ToBoolean a then a else b.

(** [parseFloat(v)]: the argument is converted to a string first. *)
Definition parseFloat (v : value) : number := parseFloat_string (ToString v).

(** [xs.indexOf(x)]: the first index holding a value [=== x], or -1. *)
Fixpoint indexOf_from (i : Z) (xs : list number) (x : number) : Z :=
  match xs with
  | [] => (-1)%Z
  | y :: r => if num_eqb y x then i else indexOf_from (i + 1) r x
  end.

Definition indexOf (xs : list number) (x : number) : Z := indexOf_from 0 xs x.

(** [xs.join(sep)] on strings. *)
Definition join (sep : string) (xs : list string) : string := String.concat sep xs.

(** *** Regular expressions: the fragment the program uses *)

Inductive regex : Type :=
| RBol                            (* ^ *)
| REol                            (* $ *)
| RClass (p : ascii -> bool)      (* a class or the dot *)
| RCat (a b : regex).

(** The dot: any code unit but a line terminator. *)
Definition dot (c : ascii) : bool := negb (is_line_terminator c).

(** Match [r] at the current position; [bol] says whether the position is
    the start of the input, [k] receives what is left. *)
Fixpoint accept (r : regex) (bol : bool) (s : string)
    (k : bool -> string -> bool) : bool :=
  match r with
  | RBol => if bol then k bol s else false
  | REol => if is_empty s then k bol s else false
  | RClass p =>
      match s with
      | String c t => p c && k false t
      | "" => false
      end
  | RCat a b => accept a bol s (fun bol' t => accept b bol' t k)
  end.

(** [s.match(r)] is truthy: [r] matches at some position of [s]. *)
Fixpoint search_from (r : regex) (bol : bool) (s : string) : bool :=
  accept r bol s (fun _ _ => true)
  || match s with
     | String _ t => search_from r false t
     | "" => false
     end.

Definition matches (r : regex) (s : string) : bool := search_from r true s.

End Js.

(** ** The command-line program *)

Module Cli.
Import Js.

(** [interface IConfigFile]: what a config file may hold ([{}] without one). *)
Record IConfigFile : Type := {
  cf_collectionName : value;
  cf_backup : value;
  cf_backupsDir : value;
  cf_migrationsDir : value;
  cf_db : value;
  cf_logs : value;
  cf_logger : value;
  cf_logIfLatest : value;
  cf_chdir : value;
  cf_mongodumpBinary : value
}.

Definition empty_config_file : IConfigFile :=
  {| cf_collectionName := VUndefined; cf_backup := VUndefined;
     cf_backupsDir := VUndefined; cf_migrationsDir := VUndefined;
     cf_db := VUndefined; cf_logs := VUndefined; cf_logger := VUndefined;
     cf_logIfLatest := VUndefined;
     cf_chdir := VUndefined; cf_mongodumpBinary := VUndefined |}.

(** [argv], as [yargs] hands it over: [command] is [argv._[0]]. *)
Record Argv : Type := {
  command : value;
  migration : value;
  rerun : value;
  a_config : value;
  a_chdir : value;
  a_logs : value;
  a_collectionName : value;
  a_db : value;
  a_backup : value;
  a_backupsDir : value;
  a_migrationsDir : value;
  a_mongodumpBinary : value
}.

(** The function the program hands over as [config.logger]. *)
Inductive logger_fn : Type := TheLogger.

(** The object [config] passed to the runner. *)
Record Config : Type := {
  logs : value;
  logger_of : logger_fn;
  logIfLatest : value;
  collectionName : value;
  db : value;
  backup : value;
  backupsDir : string;
  migrationsDir : string;
  mongodumpBinary : value
}.

(** [interface IMigration]: the default export of a migration module; [up]
    and [down] are closures the program never calls. *)
Record IMigration : Type := {
  version : value;
  name : value
}.

(** What the program observes of its environment.  [existsSync] and
    [readdirSync] may depend on the directories the program created. *)
Record World : Type := {
  cwd : string;
  resolve_join : value -> value -> string;    (* path.resolve(path.join(a, b)) *)
  require_config : string -> IConfigFile;
  existsSync : list string -> string -> bool;
  readdirSync : list string -> string -> list string;
  require_default : string -> IMigration;     (* require(p).default *)
  stored_version : number;                    (* what getVersion() resolves to *)
  now : N;                                    (* Date.now() *)
  exec_fails : string -> bool                 (* exec's callback gets an error *)
}.

Inductive event : Type :=
| ConsoleLog (args : list string)
| ConsoleError
| Mkdirp (dir : string)
| NodeRequire (path : string)
| MigratorConfig (c : Config)
| MigratorAdd (m : IMigration)
| MigratorGetVersion
| MigratorMigrateTo (spec : value)
| Exec (cmd : string).

(** *** Async functions on the job queue

    An async function runs until its first [await]; what follows an [await]
    is resumed by a later job, behind the jobs queued before it.  Promises of
    library calls are taken to fulfil and modules to load. *)

Inductive proc : Type :=
| Done                              (* the function body ended *)
| Halt                              (* process.exit() *)
| Act (e : event) (k : proc)        (* a call that returns at once *)
| Await (k : proc)                  (* await p; k *)
| Fork (child : proc) (k : proc).   (* call an async function, drop its promise *)

Record sched : Type := {
  trace : list event;
  queue : list proc;
  exited : bool
}.

Definition start : sched := {| trace := []; queue := []; exited := false |}.

(** Run [p] up to its end, its first [await] or the exit of the process. *)
Fixpoint sync (p : proc) (st : sched) : sched :=
  if exited st then st
  else
    match p with
    | Done => st
    | Halt => {| trace := trace st; queue := queue st; exited := true |}
    | Act e k =>
        sync k {| trace := trace st ++ [e]; queue := queue st; exited := false |}
    | Await k =>
        {| trace := trace st; queue := queue st ++ [k]; exited := false |}
    | Fork c k => sync k (sync c st)
    end.

(** Run queued jobs, oldest first. *)
Fixpoint loop (fuel : nat) (st : sched) : sched :=
  match fuel with
  | O => st
  | S f =>
      if exited st then st
      else
        match queue st with
        | [] => st
        | p :: q =>
            loop f (sync p {| trace := trace st; queue := q; exited := false |})
        end
  end.

Fixpoint awaits (p : proc) : nat :=
  match p with
  | Done | Halt => O
  | Act _ k => awaits k
  | Await k => S (awaits k)
  | Fork c k => awaits c + awaits k
  end.

(** One job per [await] is enough fuel (lemma [run_finished]). *)
Definition run (p : proc) : sched := loop (awaits p) (sync p start).

Definition finished (st : sched) : Prop := exited st = true \/ queue st = [].

(** *** cli.ts *)

(** [logger(level, ...arg)] *)
Definition logger (level : string) (arg : list string) : event :=
  ConsoleLog (("[" ++ level ++ "]") :: arg).

(** An array element as [join] prints it. *)
Definition join_item (v : value) : string :=
  match v with
  | VUndefined | VNull => ""
  | _ => ToString v
  end.

Definition host : string := "localhost:27017".
Definition database : string := "underbase_test".

Definition backupFile (w : World) (version : number) : string :=
  join "_" [toFixed1 version; ToString (VNum (of_N (now w))) ++ ".gz"].

Definition backupCmd (w : World) (config : Config) (version : number) : string :=
  join " " [join_item (mongodumpBinary config);
            "--host " ++ host;
            "--archive=" ++ backupsDir config ++ "/" ++ backupFile w version;
            "--gzip --db " ++ database].

(** [await createBackup(version); k] *)
Definition createBackup (w : World) (config : Config) (version : number)
    (k : proc) : proc :=
  Act (logger "info" ["Creating backup..."])
   (Act (Exec (backupCmd w config version))
    (Await
      (if exec_fails w (backupCmd w config version) then
         Act (logger "error" ["An error occured while creating backup... Cancelling."])
          (Act ConsoleError Halt)
       else
         Act (logger "success" ["Backup created : " ++ backupFile w version])
          (Await k)))).

Definition workingDirectory0 (w : World) (argv : Argv) : value :=
  or (a_chdir argv) (VStr (cwd w)).

Definition configFile (w : World) (argv : Argv) : IConfigFile :=
  if ToBoolean (a_config argv) then
    require_config w (resolve_join w (workingDirectory0 w argv) (a_config argv))
  else empty_config_file.

Definition workingDirectory (w : World) (argv : Argv) : value :=
  if ToBoolean (cf_chdir (configFile w argv)) then cf_chdir (configFile w argv)
  else workingDirectory0 w argv.

Definition config (w : World) (argv : Argv) : Config :=
  let cf := configFile w argv in
  {| logs := or (or (a_logs argv) (cf_logs cf)) (VBool true);
     logger_of := TheLogger;
     logIfLatest := VBool true;
     collectionName :=
       or (or (a_collectionName argv) (cf_collectionName cf)) (VStr "migrations");
     db := or (or (a_db argv) (cf_db cf)) VNull;
     backup := or (or (a_backup argv) (cf_backup cf)) (VBool false);
     backupsDir :=
       resolve_join w (workingDirectory w argv)
         (or (or (a_backupsDir argv) (cf_backupsDir cf)) (VStr "./migrations/backups"));
     migrationsDir :=
       resolve_join w (workingDirectory w argv)
         (or (or (a_migrationsDir argv) (cf_migrationsDir cf)) (VStr "./migrations"));
     mongodumpBinary :=
       or (or (a_mongodumpBinary argv) (cf_mongodumpBinary cf)) (VStr "mongodump") |}.

(** [/^[\d].[\d]$/] *)
Definition version_pattern : regex :=
  RCat RBol (RCat (RClass is_digit) (RCat (RClass dot) (RCat (RClass is_digit) REol))).

(** [entries.filter((v) => v.match(...))] *)
Definition discover (entries : list string) : list string :=
  filter (matches version_pattern) entries.

(** [versions.map(parseFloat)] then [.map((v) => v.toFixed(1))] *)
Definition versionsArray (versions : list string) : list number :=
  map parseFloat_string versions.

Definition normalized (versions : list string) : list string :=
  map toFixed1 (versionsArray versions).

(** The guard of the [migrate] command. *)
Definition unknown_version (argv : Argv) (versions : list string) : bool :=
  negb (strict_eq (migration argv) (VNum (Dec 0 0)))
  && (indexOf (versionsArray versions) (parseFloat (migration argv)) <? 0)%Z.

(** The callback of [versions.forEach(async (v) => ...)]. *)
Definition register (w : World) (config : Config) (v : string) : proc :=
  Act (NodeRequire (migrationsDir config ++ "/" ++ v))
   (Await
     (Act (MigratorAdd (require_default w (migrationsDir config ++ "/" ++ v)))
      (Await Done))).

Fixpoint forEach_async (body : string -> proc) (vs : list string) (k : proc) : proc :=
  match vs with
  | [] => k
  | v :: r => Fork (body v) (forEach_async body r k)
  end.

(** The argument of [migrator.migrateTo]. *)
Definition target_spec (argv : Argv) : value :=
  if ToBoolean (rerun argv) then VStr (ToString (migration argv) ++ ",rerun")
  else migration argv.

Definition migrate (w : World) (argv : Argv) (config : Config)
    (versions : list string) : proc :=
  if unknown_version argv versions then
    Act (logger "error" ["This version does not exists."]) Halt
  else
    Act (MigratorConfig config)
     (Await
       (forEach_async (register w config) (normalized versions)
         (let go := Act (MigratorMigrateTo (target_spec argv)) (Await Halt) in
          if ToBoolean (backup config) then
            Act MigratorGetVersion
             (Await (createBackup w config (stored_version w) go))
          else go))).

Fixpoint forEach_log (vs : list string) (k : proc) : proc :=
  match vs with
  | [] => k
  | v :: r => Act (ConsoleLog [v]) (forEach_log r k)
  end.

Definition list_versions (versions : list string) : proc :=
  Act (logger "info" ["Versions list based on folders"]) (forEach_log versions Halt).

Definition status (w : World) (config : Config) : proc :=
  Act (MigratorConfig config)
   (Await
     (Act MigratorGetVersion
      (Await
        (Act (logger "info"
                ["Current version is " ++ number_to_string (stored_version w)])
          Halt)))).

Definition invalid_command : event :=
  logger "error" ["Invalid command. Type --help to show available commands."].

(** Directories created so far, after the two [existsSync] checks. *)
Definition made1 (w : World) (config : Config) : list string :=
  if existsSync w [] (migrationsDir config) then [] else [migrationsDir config].

Definition made2 (w : World) (config : Config) : list string :=
  if existsSync w (made1 w config) (backupsDir config) then made1 w config
  else made1 w config ++ [backupsDir config].

(** [fs.readdirSync(config.migrationsDir)] and the entries kept of it. *)
Definition listing (w : World) (argv : Argv) : list string :=
  readdirSync w (made2 w (config w argv)) (migrationsDir (config w argv)).

Definition versions_of (w : World) (argv : Argv) : list string :=
  discover (listing w argv).

Definition ensure_dir (present : bool) (dir msg : string) (k : proc) : proc :=
  if present then k
  else Act (Mkdirp dir) (Act (logger "info" [msg]) k).

(** The body of the top-level async function. *)
Definition main (w : World) (argv : Argv) : proc :=
  let config := config w argv in
  if negb (ToBoolean (command argv)) then Act invalid_command Halt
  else
    ensure_dir (existsSync w [] (migrationsDir config)) (migrationsDir config)
      "Created migration directory."
     (ensure_dir (existsSync w (made1 w config) (backupsDir config)) (backupsDir config)
        "Created backup directory."
       (let versions := versions_of w argv in
        if strict_eq (command argv) (VStr "migrate") then migrate w argv config versions
        else if strict_eq (command argv) (VStr "list") then list_versions versions
        else if strict_eq (command argv) (VStr "status") then status w config
        else Act invalid_command Halt)).

(** The events of one run of the program, in order. *)
Definition events (w : World) (argv : Argv) : list event := trace (run (main w argv)).

(** *** Reading a trace *)

Definition is_add (e : event) : bool :=
  match e with MigratorAdd _ => true | _ => false end.

Definition is_migrateTo (e : event) : bool :=
  match e with MigratorMigrateTo _ => true | _ => false end.

Definition is_exec (e : event) : bool :=
  match e with Exec _ => true | _ => false end.

(** Calls that reach the runner or the database. *)
Definition touches_state (e : event) : bool :=
  match e with
  | MigratorConfig _ | MigratorAdd _ | MigratorGetVersion
  | MigratorMigrateTo _ | Exec _ => true
  | _ => false
  end.

Definition count (p : event -> bool) (t : list event) : nat := List.length (filter p t).

(** The units added and the specs migrated to, in order. *)
Fixpoint added (t : list event) : list IMigration :=
  match t with
  | [] => []
  | MigratorAdd m :: r => m :: added r
  | _ :: r => added r
  end.

Fixpoint migrated_to (t : list event) : list value :=
  match t with
  | [] => []
  | MigratorMigrateTo s :: r => s :: migrated_to r
  | _ :: r => migrated_to r
  end.

(** *** The trace of a run, written out *)

Definition module_path (config : Config) (v : string) : string :=
  migrationsDir config ++ "/" ++ v.

Definition requires (config : Config) (vs : list string) : list event :=
  map (fun v => NodeRequire (module_path config v)) vs.

Definition adds (w : World) (config : Config) (vs : list string) : list event :=
  map (fun v => MigratorAdd (require_default w (module_path config v))) vs.

(** What is left of [register] after its first and second [await]. *)
Definition add_job (w : World) (config : Config) (v : string) : proc :=
  Act (MigratorAdd (require_default w (module_path config v))) (Await Done).

Definition prelude (w : World) (config : Config) : list event :=
  (if existsSync w [] (migrationsDir config) then []
   else [Mkdirp (migrationsDir config); logger "info" ["Created migration directory."]])
  ++
  (if existsSync w (made1 w config) (backupsDir config) then []
   else [Mkdirp (backupsDir config); logger "info" ["Created backup directory."]]).

Definition backup_trace (w : World) (argv : Argv) (config : Config) : list event :=
  [logger "info" ["Creating backup..."];
   Exec (backupCmd w config (stored_version w))]
  ++
  (if exec_fails w (backupCmd w config (stored_version w)) then
     [logger "error" ["An error occured while creating backup... Cancelling."];
      ConsoleError]
   else
     [logger "success" ["Backup created : " ++ backupFile w (stored_version w)];
      MigratorMigrateTo (target_spec argv)]).

Definition migrate_trace (w : World) (argv : Argv) (config : Config)
    (versions : list string) : list event :=
  if unknown_version argv versions then
    [logger "error" ["This version does not exists."]]
  else
    MigratorConfig config :: requires config (normalized versions)
    ++
    (if ToBoolean (backup config) then
       MigratorGetVersion :: adds w config (normalized versions)
       ++ backup_trace w argv config
     else
       MigratorMigrateTo (target_spec argv) :: adds w config (normalized versions)).

Definition main_trace (w : World) (argv : Argv) : list event :=
  let config := config w argv in
  if negb (ToBoolean (command argv)) then [invalid_command]
  else
    prelude w config
    ++
    (if strict_eq (command argv) (VStr "migrate") then
       migrate_trace w argv config (versions_of w argv)
     else if strict_eq (command argv) (VStr "list") then
       logger "info" ["Versions list based on folders"]
       :: map (fun v => ConsoleLog [v]) (versions_of w argv)
     else if strict_eq (command argv) (VStr "status") then
       [MigratorConfig config; MigratorGetVersion;
        logger "info" ["Current version is " ++ number_to_string (stored_version w)]]
     else [invalid_command]).

(** Jobs still to run, counted with their [await]s. *)
Definition weight (q : list proc) : nat :=
  fold_right (fun p n => S (awaits p + n)) O q.

(** *** Shapes of names and versions *)

(** The pattern as the specification words it: one digit, a literal dot,
    one digit. *)
Definition dotted (s : string) : bool :=
  match s with
  | String a (String c (String b "")) => is_digit a && Ascii.eqb c "." && is_digit b
  | _ => false
  end.

(** What [version_pattern] accepts (lemma [matches_version_pattern]): one
    digit, any code unit but a line terminator, one digit. *)
Definition digit_any_digit (s : string) : bool :=
  match s with
  | String a (String c (String b "")) => is_digit a && dot c && is_digit b
  | _ => false
  end.

(** Digits, a dot, exactly one digit. *)
Definition unsigned_fixed1 (s : string) : bool :=
  let k := String.length s in
  (3 <=? k)%nat
  && all_digits (take (k - 2) s)
  && String.eqb (take 1 (drop (k - 2) s)) "."
  && all_digits (drop (k - 1) s).

(** The same after an optional minus sign. *)
Definition fixed1 (s : string) : bool :=
  match s with
  | String "-" r => unsigned_fixed1 r
  | _ => unsigned_fixed1 s
  end.

(** Every code unit, and a check of every name the pattern accepts. *)
Definition all_codes : list ascii := map ascii_of_nat (seq 0 256).

Definition for_all_names (P : string -> bool) : bool :=
  forallb (fun a =>
    if is_digit a then
      forallb (fun c =>
        if dot c then
          forallb (fun b =>
            if is_digit b then P (String a (String c (String b ""))) else true)
            all_codes
        else true) all_codes
    else true) all_codes.

(** The version a name stands for is finite, below 10^21 and not negative. *)
Definition plain_version (s : string) : bool :=
  fixed_range (parseFloat_string s) && num_nonneg (parseFloat_string s).

(** A name with a literal dot is its own normal form. *)
Definition keeps_dotted (s : string) : bool :=
  if dotted s then String.eqb (toFixed1 (parseFloat_string s)) s else true.

(** [a < b] on Numbers. *)
Definition num_ltb (a b : number) : bool :=
  match a, b with
  | Dec m1 e1, Dec m2 e2 =>
      if (e1 <=? e2)%Z then (m1 <? m2 * 10 ^ (e2 - e1))%Z
      else (m1 * 10 ^ (e1 - e2) <? m2)%Z
  | Inf true, Inf false => true
  | Inf true, Dec _ _ => true
  | Dec _ _, Inf false => true
  | _, _ => false
  end.

(** Strictly ascending: ordered and without repetition. *)
Fixpoint ascending (xs : list number) : bool :=
  match xs with
  | x :: ((y :: _) as r) => num_ltb x y && ascending r
  | _ => true
  end.

Definition boolean_or_absent (v : value) : bool :=
  match v with
  | VUndefined | VBool _ => true
  | _ => false
  end.

(** *** Sample runs *)

Definition below (dir sub : string) : string :=
  match sub with
  | String "." (String "/" r) => dir ++ "/" ++ r
  | _ => dir ++ "/" ++ sub
  end.

Definition sample_world (entries : list string) (dump_fails : bool) : World :=
  {| cwd := "/app";
     resolve_join := fun a b => below (ToString a) (ToString b);
     require_config := fun _ => empty_config_file;
     existsSync := fun _ _ => true;
     readdirSync := fun _ _ => entries;
     require_default := fun p => {| version := VUndefined; name := VStr p |};
     stored_version := Dec 11 (-1);
     now := 1700000000000;
     exec_fails := fun _ => dump_fails |}.

Definition sample_argv (cmd : string) (target rerun_flag backup_flag : value) : Argv :=
  {| command := VStr cmd; migration := target; rerun := rerun_flag;
     a_config := VUndefined; a_chdir := VUndefined; a_logs := VUndefined;
     a_collectionName := VUndefined; a_db := VUndefined; a_backup := backup_flag;
     a_backupsDir := VUndefined; a_migrationsDir := VUndefined;
     a_mongodumpBinary := VUndefined |}.

Definition one : number := Dec 1 0.
Definition zero : number := Dec 0 0.

(** *** More ways to read a trace *)

(** The module paths loaded, in order. *)
Fixpoint required (t : list event) : list string :=
  match t with
  | [] => []
  | NodeRequire p :: r => p :: required r
  | _ :: r => required r
  end.

(** The first call of a run that reaches the runner or the database. *)
Definition first_touch (t : list event) : option event := find touches_state t.

Definition is_require (e : event) : bool :=
  match e with NodeRequire _ => true | _ => false end.

Definition is_mkdirp (e : event) : bool :=
  match e with Mkdirp _ => true | _ => false end.

(** A world in which only the directories the program made exist. *)
Definition bare_world (entries : list string) : World :=
  {| cwd := "/app";
     resolve_join := fun a b => below (ToString a) (ToString b);
     require_config := fun _ => empty_config_file;
     existsSync := fun made d => existsb (String.eqb d) made;
     readdirSync := fun _ _ => entries;
     require_default := fun p => {| version := VUndefined; name := VStr p |};
     stored_version := Dec 0 0;
     now := 1700000000000;
     exec_fails := fun _ => false |}.

(** A world whose config file turns backups on. *)
Definition backup_file_world (entries : list string) : World :=
  {| cwd := "/app";
     resolve_join := fun a b => below (ToString a) (ToString b);
     require_config := fun _ =>
       {| cf_collectionName := VUndefined; cf_backup := VBool true;
          cf_backupsDir := VUndefined; cf_migrationsDir := VUndefined;
          cf_db := VUndefined; cf_logs := VUndefined; cf_logger := VUndefined;
          cf_logIfLatest := VUndefined;
          cf_chdir := VUndefined; cf_mongodumpBinary := VUndefined |};
     existsSync := fun _ _ => true;
     readdirSync := fun _ _ => entries;
     require_default := fun p => {| version := VUndefined; name := VStr p |};
     stored_version := Dec 1 0;
     now := 1700000000000;
     exec_fails := fun _ => false |}.

(** [--config underbase.js --no-backup migrate <target>] *)
Definition config_argv (target : value) : Argv :=
  {| command := VStr "migrate"; migration := target; rerun := VUndefined;
     a_config := VStr "underbase.js"; a_chdir := VUndefined; a_logs := VUndefined;
     a_collectionName := VUndefined; a_db := VUndefined; a_backup := VBool false;
     a_backupsDir := VUndefined; a_migrationsDir := VUndefined;
     a_mongodumpBinary := VUndefined |}.

(** [argv] of a run without a command. *)
Definition no_command : Argv :=
  {| command := VUndefined; migration := VUndefined; rerun := VUndefined;
     a_config := VUndefined; a_chdir := VUndefined; a_logs := VUndefined;
     a_collectionName := VUndefined; a_db := VUndefined;
     a_backup := VUndefined; a_backupsDir := VUndefined;
     a_migrationsDir := VUndefined; a_mongodumpBinary := VUndefined |}.

(** The round trips checked on every name the pattern accepts. *)
Definition reads_back (s : string) : bool :=
  num_eqb (parseFloat_string s) (parseFloat (VNum (parseFloat_string s)))
  && num_eqb (parseFloat_string (toFixed1 (parseFloat_string s))) (parseFloat_string s)
  && String.eqb (toFixed1 (parseFloat_string (toFixed1 (parseFloat_string s))))
                (toFixed1 (parseFloat_string s)).

End Cli.

(** ** The sample migration unit

    The default export of the migration module of the repository: [up]
    drops the field [isAdmin] of every document of [users], [down] sets it
    to [false].  Neither returns the promise of [updateMany]; the database
    is the one the update leaves once it has settled. *)

Module Migration.
Import Js.

(** A document is its fields in order; a database maps a collection name
    to its documents. *)
Definition document : Type := list (string * value).
Definition store : Type := string -> list document.

Fixpoint field (k : string) (d : document) : option value :=
  match d with
  | [] => None
  | (k', v) :: r => if String.eqb k' k then Some v else field k r
  end.

(** [{ $unset_field: { k: 1 } }] *)
Fixpoint unset_field (k : string) (d : document) : document :=
  match d with
  | [] => []
  | (k', v) :: r => if String.eqb k' k then unset_field k r else (k', v) :: unset_field k r
  end.

Fixpoint has_field (k : string) (d : document) : bool :=
  match d with
  | [] => false
  | (k', _) :: r => String.eqb k' k || has_field k r
  end.

Fixpoint overwrite (k : string) (v : value) (d : document) : document :=
  match d with
  | [] => []
  | (k', v') :: r =>
      if String.eqb k' k then (k', v) :: r else (k', v') :: overwrite k v r
  end.

(** [{ $set: { k: v } }]: in place when the field is there, at the end
    otherwise. *)
Definition set_field (k : string) (v : value) (d : document) : document :=
  if has_field k d then overwrite k v d else (d ++ [(k, v)])%list.

(** [db.collection(c).updateMany({}, update)]: the empty filter matches
    every document. *)
Definition updateMany (db : store) (c : string) (update : document -> document)
    : store :=
  fun c' => if String.eqb c' c then map update (db c') else db c'.

(** What a unit prints with [console.log], and the database it leaves. *)
Definition up (db : store) : list string * store :=
  (["up users"], updateMany db "users" (unset_field "isAdmin")).

Definition down (db : store) : list string * store :=
  (["down users"], updateMany db "users" (set_field "isAdmin" (VBool false))).

Definition sample_users : store :=
  fun c =>
    if String.eqb c "users" then
      [[("name", VStr "ada"); ("isAdmin", VBool true)];
       [("name", VStr "bob")]]
    else [].

End Migration.

Import Js Cli.

(** ** The job queue *)

Lemma weight_app (q r : list proc) : weight (q ++ r) = (weight q + weight r)%nat.
Proof. induction q as [|p q IH]; simpl; [reflexivity | rewrite IH; lia]. Qed.

Lemma sync_weight (p : proc) :
  forall st, (weight (queue (sync p st)) <= weight (queue st) + awaits p)%nat.
Proof.
  induction p as [| |e k IH|k IH|c IHc k IHk]; intros st; simpl;
    destruct (exited st) eqn:E; simpl; try lia.
  - specialize (IH {| trace := trace st ++ [e]; queue := queue st; exited := false |}).
    simpl in IH. exact IH.
  - rewrite weight_app. simpl. lia.
  - specialize (IHk (sync c st)). specialize (IHc st). lia.
Qed.

Lemma loop_finished (n : nat) :
  forall st, (weight (queue st) <= n)%nat -> finished (loop n st).
Proof.
  induction n as [|n IH]; intros st H; simpl.
  - right. destruct (queue st); [reflexivity | simpl in H; lia].
  - destruct (exited st) eqn:E; [left; exact E|].
    destruct (queue st) as [|p q] eqn:Q; [right; exact Q|].
    apply IH. simpl in H.
    pose proof (sync_weight p {| trace := trace st; queue := q; exited := false |}) as W.
    simpl in W. lia.
Qed.

(** The run of a program comes to an end: the fuel of [run] is enough. *)
Lemma run_finished (p : proc) : finished (run p).
Proof.
  unfold run. apply loop_finished.
  pose proof (sync_weight p start) as W. simpl in W. lia.
Qed.

Lemma loop_fixed (n : nat) (st : sched) : finished st -> loop n st = st.
Proof.
  intros [H|H]; destruct n; simpl; try reflexivity.
  - rewrite H. reflexivity.
  - rewrite H. destruct (exited st); reflexivity.
Qed.

Lemma loop_add (n m : nat) : forall st, loop (n + m) st = loop m (loop n st).
Proof.
  induction n as [|n IH]; intros st; simpl; [reflexivity|].
  destruct (exited st) eqn:E.
  - symmetry. apply loop_fixed. left. exact E.
  - destruct (queue st) eqn:Q.
    + symmetry. apply loop_fixed. right. exact Q.
    + apply IH.
Qed.

Lemma loop_unique (n m : nat) (st : sched) :
  finished (loop n st) -> finished (loop m st) -> loop n st = loop m st.
Proof.
  intros Hn Hm. destruct (Nat.le_ge_cases n m) as [L|L].
  - replace m with (n + (m - n))%nat by lia.
    rewrite loop_add. symmetry. apply loop_fixed. exact Hn.
  - replace n with (m + (n - m))%nat by lia.
    rewrite loop_add. apply loop_fixed. exact Hm.
Qed.

(** Any amount of fuel that reaches the end gives the run. *)
Lemma run_eq (p : proc) (n : nat) (st : sched) :
  loop n (sync p start) = st -> finished st -> run p = st.
Proof.
  intros H F. subst st. unfold run. apply loop_unique; [|exact F].
  apply run_finished.
Qed.


(** ** The trace of each command *)

Lemma sync_ensure_dir (present : bool) (dir msg : string) (k : proc) (t : list event)
    (q : list proc) :
  sync (ensure_dir present dir msg k) {| trace := t; queue := q; exited := false |}
  = sync k {| trace := t ++ (if present then [] else [Mkdirp dir; logger "info" [msg]]);
              queue := q; exited := false |}.
Proof.
  destruct present; simpl.
  - rewrite List.app_nil_r. reflexivity.
  - rewrite <- List.app_assoc. reflexivity.
Qed.

Lemma sync_forEach_async (w : World) (config : Config) (k : proc) (vs : list string) :
  forall t q,
    sync (forEach_async (register w config) vs k)
         {| trace := t; queue := q; exited := false |}
    = sync k {| trace := t ++ requires config vs;
                queue := q ++ map (add_job w config) vs; exited := false |}.
Proof.
  induction vs as [|v vs IH]; intros t q; simpl.
  - rewrite !List.app_nil_r. reflexivity.
  - rewrite IH. unfold module_path. rewrite <- !List.app_assoc. reflexivity.
Qed.

Lemma sync_forEach_log (k : proc) (vs : list string) :
  forall t q,
    sync (forEach_log vs k) {| trace := t; queue := q; exited := false |}
    = sync k {| trace := t ++ map (fun v => ConsoleLog [v]) vs;
                queue := q; exited := false |}.
Proof.
  induction vs as [|v vs IH]; intros t q; simpl.
  - rewrite List.app_nil_r. reflexivity.
  - rewrite IH, <- List.app_assoc. reflexivity.
Qed.

(** The queued halves of [register] run one after the other, each leaving
    a job that has nothing more to do. *)
Lemma loop_add_jobs (w : World) (config : Config) (n : nat) (vs : list string) :
  forall t q,
    loop (List.length vs + n)
         {| trace := t; queue := map (add_job w config) vs ++ q; exited := false |}
    = loop n {| trace := t ++ adds w config vs;
                queue := q ++ map (fun _ => Done) vs; exited := false |}.
Proof.
  induction vs as [|v vs IH]; intros t q; simpl.
  - rewrite !List.app_nil_r. reflexivity.
  - rewrite <- List.app_assoc. rewrite IH. rewrite <- !List.app_assoc. reflexivity.
Qed.

Lemma loop_done_jobs (A : Type) (n : nat) (vs : list A) :
  forall t q,
    loop (List.length vs + n)
         {| trace := t; queue := map (fun _ => Done) vs ++ q; exited := false |}
    = loop n {| trace := t; queue := q; exited := false |}.
Proof.
  induction vs as [|v vs IH]; intros t q; simpl; [reflexivity | apply IH].
Qed.

Lemma run_migrate (w : World) (argv : Argv) (config : Config) (versions : list string)
    (t : list event) :
  exists n st,
    loop n (sync (migrate w argv config versions)
                 {| trace := t; queue := []; exited := false |}) = st
    /\ trace st = (t ++ migrate_trace w argv config versions)%list
    /\ exited st = true.
Proof.
  unfold migrate, migrate_trace.
  destruct (unknown_version argv versions).
  - exists O. eexists. split; [reflexivity|]. simpl. split; reflexivity.
  - set (vs := normalized versions).
    destruct (ToBoolean (backup config)) eqn:B.
    + exists (1 + (List.length vs + (1 + (List.length vs + 3))))%nat. eexists.
      split; [reflexivity|].
      cbn [Nat.add loop sync exited queue trace app].
      rewrite sync_forEach_async. cbn [sync exited queue trace app].
      rewrite loop_add_jobs.
      unfold createBackup, backup_trace.
      cbn [Nat.add loop sync exited queue trace app].
      rewrite loop_done_jobs.
      destruct (exec_fails w (backupCmd w config (stored_version w)));
        cbn [Nat.add loop sync exited queue trace app];
        rewrite <- !List.app_assoc; cbn [app]; split; reflexivity.
    + exists (1 + (List.length vs + 1))%nat. eexists.
      split; [reflexivity|].
      cbn [Nat.add loop sync exited queue trace app].
      rewrite sync_forEach_async. cbn [sync exited queue trace app].
      rewrite loop_add_jobs.
      cbn [Nat.add loop sync exited queue trace app].
      rewrite <- !List.app_assoc; cbn [app]; split; reflexivity.
Qed.

(** The events of a run are those of [main_trace], and every run ends in
    [process.exit()]. *)
Lemma run_main (w : World) (argv : Argv) :
  events w argv = main_trace w argv /\ exited (run (main w argv)) = true.
Proof.
  unfold events.
  assert (exists n st, loop n (sync (main w argv) start) = st
                       /\ trace st = main_trace w argv /\ exited st = true)
    as (n & st & H & T & E).
  { unfold main, main_trace, start.
    destruct (negb (ToBoolean (command argv))).
    - exists O. eexists. split; [reflexivity|]. split; reflexivity.
    - rewrite !sync_ensure_dir. cbn [app]. fold (prelude w (config w argv)).
      destruct (strict_eq (command argv) (VStr "migrate")).
      + apply run_migrate.
      + destruct (strict_eq (command argv) (VStr "list")).
        * exists O. eexists. split; [reflexivity|].
          unfold list_versions. cbn [loop sync exited queue trace].
          rewrite sync_forEach_log. cbn [loop sync exited queue trace].
          rewrite <- List.app_assoc. split; reflexivity.
        * destruct (strict_eq (command argv) (VStr "status")).
          -- exists 2%nat. eexists. split; [reflexivity|].
             unfold status. cbn [loop sync exited queue trace app].
             rewrite <- !List.app_assoc. split; reflexivity.
          -- exists O. eexists. split; [reflexivity|].
             cbn [loop sync exited queue trace]. split; reflexivity. }
  rewrite (run_eq _ n st H (or_introl E)). split; assumption.
Qed.

(** ** Discovery *)

Lemma search_anchored (s : string) : search_from version_pattern false s = false.
Proof. induction s as [|c s IH]; simpl; [reflexivity | exact IH]. Qed.

(** What the pattern of the program accepts. *)
Lemma matches_version_pattern (s : string) :
  matches version_pattern s = digit_any_digit s.
Proof.
  unfold matches.
  destruct s as [|a s]; [reflexivity|].
  cbn [search_from]. rewrite search_anchored, orb_false_r.
  destruct s as [|c [|b [|d r]]]; cbn;
    repeat match goal with
           | |- context [is_digit ?x] => destruct (is_digit x)
           | |- context [dot ?x] => destruct (dot x)
           end; reflexivity.
Qed.

Lemma dotted_digit_any_digit (s : string) : dotted s = true -> digit_any_digit s = true.
Proof.
  destruct s as [|a [|c [|b [|d r]]]]; simpl; try discriminate.
  intros H. apply andb_prop in H as [H Hb]. apply andb_prop in H as [Ha Hc].
  apply Ascii.eqb_eq in Hc. subst c. rewrite Ha, Hb. reflexivity.
Qed.

Lemma discover_spec (entries : list string) (v : string) :
  In v (discover entries) <-> In v entries /\ digit_any_digit v = true.
Proof.
  unfold discover. rewrite filter_In, matches_version_pattern. reflexivity.
Qed.

(** ** Strings and digits *)

Lemma length_take (n : nat) : forall s, String.length (take n s) = Nat.min n (String.length s).
Proof.
  induction n as [|n IH]; intros [|c s]; simpl; try reflexivity.
  rewrite IH. reflexivity.
Qed.

Lemma take_app (u r : string) : take (String.length u) (u ++ r) = u.
Proof.
  induction u as [|c u IH]; simpl.
  - destruct r; reflexivity.
  - rewrite IH. reflexivity.
Qed.

Lemma drop_app (u r : string) : drop (String.length u) (u ++ r) = r.
Proof. induction u as [|c u IH]; simpl; [reflexivity | exact IH]. Qed.

Lemma take_drop (n : nat) : forall s, take n s ++ drop n s = s.
Proof.
  induction n as [|n IH]; intros [|c s]; simpl; try reflexivity.
  rewrite IH. reflexivity.
Qed.

Lemma append_assoc (u v r : string) : (u ++ v) ++ r = u ++ (v ++ r).
Proof. induction u as [|c u IH]; simpl; [reflexivity | rewrite IH; reflexivity]. Qed.

Lemma length_app (u r : string) :
  String.length (u ++ r) = (String.length u + String.length r)%nat.
Proof. induction u as [|c u IH]; simpl; [reflexivity | rewrite IH; reflexivity]. Qed.

Lemma length_drop (n : nat) (s : string) :
  String.length (drop n s) = (String.length s - n)%nat.
Proof.
  pose proof (f_equal String.length (take_drop n s)) as H.
  rewrite length_app, length_take in H. lia.
Qed.

Lemma all_digits_app (u r : string) :
  all_digits (u ++ r) = all_digits u && all_digits r.
Proof.
  induction u as [|c u IH]; simpl; [reflexivity|].
  rewrite IH, andb_assoc. reflexivity.
Qed.

Lemma all_digits_take_drop (n : nat) (s : string) :
  all_digits s = true -> all_digits (take n s) = true /\ all_digits (drop n s) = true.
Proof.
  intros H. rewrite <- (take_drop n s), all_digits_app in H.
  apply andb_prop in H. exact H.
Qed.

Lemma all_digits_zeros (n : nat) : all_digits (zeros n) = true.
Proof. induction n; simpl; [reflexivity | exact IHn]. Qed.

Lemma length_zeros (n : nat) : String.length (zeros n) = n.
Proof. induction n; simpl; [reflexivity | rewrite IHn; reflexivity]. Qed.

Lemma all_digits_uint (d : Decimal.uint) : all_digits (NilEmpty.string_of_uint d) = true.
Proof. induction d; simpl; try reflexivity; exact IHd. Qed.

Lemma all_digits_digits (n : N) : all_digits (digits n) = true.
Proof.
  unfold digits, NilZero.string_of_uint.
  destruct (N.to_uint n) eqn:E; try reflexivity;
    rewrite <- E; apply all_digits_uint.
Qed.

Lemma digits_not_empty (n : N) : (1 <= String.length (digits n))%nat.
Proof.
  unfold digits, NilZero.string_of_uint.
  destruct (N.to_uint n); simpl; lia.
Qed.

Lemma unsigned_fixed1_split (md : string) :
  all_digits md = true -> (2 <= String.length md)%nat ->
  unsigned_fixed1 (take (String.length md - 1) md ++ "." ++ drop (String.length md - 1) md)
  = true.
Proof.
  intros D L.
  set (k := String.length md) in *.
  destruct (all_digits_take_drop (k - 1) md D) as [Du Dv].
  assert (Lu : String.length (take (k - 1) md) = (k - 1)%nat)
    by (rewrite length_take; fold k; lia).
  assert (Lv : String.length (drop (k - 1) md) = 1%nat)
    by (rewrite length_drop; fold k; lia).
  unfold unsigned_fixed1.
  rewrite !length_app, Lu, Lv. cbn [String.length].
  replace (k - 1 + (1 + 1) - 2)%nat with (String.length (take (k - 1) md)) by lia.
  rewrite take_app, drop_app, Du.
  replace (k - 1 + (1 + 1) - 1)%nat
    with (String.length (take (k - 1) md ++ "."))%nat
    by (rewrite length_app, Lu; simpl; lia).
  replace (take (k - 1) md ++ "." ++ drop (k - 1) md)
    with ((take (k - 1) md ++ ".") ++ drop (k - 1) md)
    by (rewrite append_assoc; reflexivity).
  rewrite drop_app, Dv.
  replace (3 <=? k - 1 + (1 + 1))%nat with true by (symmetry; apply Nat.leb_le; lia).
  reflexivity.
Qed.

Lemma fixed1_of_digit_head (s : string) :
  unsigned_fixed1 s = true -> all_digits (take 1 s) = true -> fixed1 s = true.
Proof.
  intros U H. destruct s as [|c r]; [exact U|].
  unfold fixed1. destruct (Ascii.eqb c "-") eqn:E.
  - apply Ascii.eqb_eq in E. subst c. discriminate H.
  - destruct c as [[] [] [] [] [] [] [] []]; try exact U. discriminate E.
Qed.

(** In the range where [toFixed] uses fixed-point notation its result is
    an optional minus sign, digits, a dot and exactly one digit. *)
Lemma toFixed1_body (m e : Z) :
  ge_1e21 (Z.abs m) e = false ->
  exists body,
    toFixed1 (Dec m e) = (if (m <? 0)%Z then "-" else "") ++ body
    /\ unsigned_fixed1 body = true
    /\ all_digits (take 1 body) = true.
Proof.
  unfold toFixed1. intros R. rewrite R.
  set (n := tenths (Z.abs m) e).
  set (md0 := if (n =? 0)%N then "0" else digits n).
  assert (D0 : all_digits md0 = true).
  { unfold md0. destruct (n =? 0)%N; [reflexivity | apply all_digits_digits]. }
  assert (L0 : (1 <= String.length md0)%nat).
  { unfold md0. destruct (n =? 0)%N; [simpl; lia | apply digits_not_empty]. }
  set (md := if (String.length md0 <=? 1)%nat
             then zeros (2 - String.length md0) ++ md0 else md0).
  assert (D : all_digits md = true).
  { unfold md. destruct (String.length md0 <=? 1)%nat; [|exact D0].
    rewrite all_digits_app, all_digits_zeros, D0. reflexivity. }
  assert (L : (2 <= String.length md)%nat).
  { unfold md. destruct (String.length md0 <=? 1)%nat eqn:E.
    - rewrite length_app, length_zeros. lia.
    - apply Nat.leb_gt in E. lia. }
  eexists. split; [reflexivity|].
  split; [apply unsigned_fixed1_split; assumption|].
  destruct md as [|c md']; [simpl in L; lia|].
  destruct md' as [|c' md'']; [simpl in L; lia|].
  simpl in D. apply andb_prop in D as [Dc _].
  cbn [String.length Nat.sub take append]. simpl. rewrite Dc. reflexivity.
Qed.

Lemma toFixed1_shape (x : number) : fixed_range x = true -> fixed1 (toFixed1 x) = true.
Proof.
  destruct x as [| |m e]; try discriminate.
  unfold fixed_range. intros R. apply negb_true_iff in R.
  destruct (toFixed1_body m e R) as (body & -> & U & H).
  destruct (m <? 0)%Z; [exact U|].
  apply fixed1_of_digit_head; assumption.
Qed.

Lemma toFixed1_unsigned (x : number) :
  fixed_range x = true -> num_nonneg x = true -> unsigned_fixed1 (toFixed1 x) = true.
Proof.
  destruct x as [| |m e]; try discriminate.
  unfold fixed_range, num_nonneg. intros R P. apply negb_true_iff in R.
  destruct (toFixed1_body m e R) as (body & -> & U & _).
  replace (m <? 0)%Z with false by (symmetry; apply Z.ltb_ge; apply Z.leb_le; exact P).
  exact U.
Qed.

(** ** Every accepted name, by enumeration *)

Lemma in_all_codes (c : ascii) : In c all_codes.
Proof.
  unfold all_codes. rewrite <- (ascii_nat_embedding c).
  apply in_map. apply in_seq. pose proof (nat_ascii_bounded c). lia.
Qed.

Lemma for_all_names_spec (P : string -> bool) :
  for_all_names P = true ->
  forall s, digit_any_digit s = true -> P s = true.
Proof.
  unfold for_all_names. intros H s S.
  destruct s as [|a [|c [|b [|d r]]]]; try discriminate S.
  simpl in S. apply andb_prop in S as [S Hb]. apply andb_prop in S as [Ha Hc].
  rewrite forallb_forall in H. specialize (H a (in_all_codes a)).
  rewrite Ha, forallb_forall in H. specialize (H c (in_all_codes c)).
  rewrite Hc, forallb_forall in H. specialize (H b (in_all_codes b)).
  rewrite Hb in H. exact H.
Qed.

Lemma accepted_plain (s : string) : digit_any_digit s = true -> plain_version s = true.
Proof. apply for_all_names_spec. vm_compute. reflexivity. Qed.

Lemma dotted_kept (s : string) :
  dotted s = true -> toFixed1 (parseFloat_string s) = s.
Proof.
  intros D.
  pose proof (for_all_names_spec keeps_dotted) as H.
  assert (K : keeps_dotted s = true).
  { apply H; [vm_compute; reflexivity | apply dotted_digit_any_digit; exact D]. }
  unfold keeps_dotted in K. rewrite D in K. apply String.eqb_eq. exact K.
Qed.

(** ** Printing integers *)

Lemma length_string_of_uint (d : Decimal.uint) :
  String.length (NilEmpty.string_of_uint d) = Decimal.nb_digits d.
Proof. induction d; simpl; try reflexivity; rewrite IHd; reflexivity. Qed.

Lemma usize_nb_digits (d : Decimal.uint) :
  DecimalPos.Unsigned.usize d = N.of_nat (Decimal.nb_digits d).
Proof.
  induction d; cbn [DecimalPos.Unsigned.usize Decimal.nb_digits]; try reflexivity;
    rewrite IHd; lia.
Qed.

Lemma of_uint_acc_lower (d : Decimal.uint) (acc : positive) :
  (10 ^ N.of_nat (Decimal.nb_digits d) <= N.pos (Pos.of_uint_acc d acc))%N.
Proof.
  rewrite DecimalPos.Unsigned.of_uint_acc_rev, usize_nb_digits.
  pose proof (N.pow_nonzero 10 (N.of_nat (Decimal.nb_digits d))).
  nia.
Qed.

Lemma of_uint_lower (d : Decimal.uint) :
  Decimal.unorm d = d ->
  (N.of_uint d = 0%N /\ Decimal.nb_digits d = 1%nat)
  \/ (10 ^ N.of_nat (Decimal.nb_digits d - 1) <= N.of_uint d)%N.
Proof.
  intros U. unfold Decimal.unorm in U.
  destruct (Decimal.nzhead d) as [|u|u|u|u|u|u|u|u|u|u] eqn:E; subst d;
    try (left; split; reflexivity);
    try (right; unfold N.of_uint; cbn [Pos.of_uint Decimal.nb_digits Nat.sub];
         rewrite Nat.sub_0_r; apply of_uint_acc_lower).
  simpl in E. pose proof (nb_digits_nzhead u) as H. rewrite E in H.
  simpl in H. lia.
Qed.

Lemma digits_length (n : N) (k : nat) :
  (n < 10 ^ N.of_nat k)%N -> (1 <= k)%nat -> (String.length (digits n) <= k)%nat.
Proof.
  intros B K. unfold digits.
  set (d := N.to_uint n).
  assert (U : Decimal.unorm d = d).
  { unfold d. rewrite <- DecimalN.Unsigned.to_of, DecimalN.Unsigned.of_to.
    reflexivity. }
  assert (L : String.length (NilZero.string_of_uint d) = Nat.max 1 (Decimal.nb_digits d)).
  { unfold NilZero.string_of_uint.
    destruct d; try reflexivity; rewrite length_string_of_uint; simpl; lia. }
  rewrite L.
  destruct (of_uint_lower d U) as [[_ H]|H]; [lia|].
  unfold d in H at 2. rewrite DecimalN.Unsigned.of_to in H.
  assert (N.of_nat (Decimal.nb_digits d - 1) < N.of_nat k)%N.
  { apply (N.pow_lt_mono_r_iff 10); [lia|]. lia. }
  lia.
Qed.

Lemma strip_zeros_spec (s : string) :
  s = fst (strip_zeros s) ++ zeros (snd (strip_zeros s)).
Proof.
  induction s as [|c s IH]; [reflexivity|].
  simpl. destruct (strip_zeros s) as [r z]. simpl in IH.
  destruct (is_empty r && Ascii.eqb c "0") eqn:E; simpl.
  - apply andb_prop in E as [Er Ec]. apply Ascii.eqb_eq in Ec.
    destruct r; [|discriminate Er]. simpl in IH. subst c s. reflexivity.
  - rewrite <- IH. reflexivity.
Qed.

(** A non-negative integer below 10^21 prints as its decimal digits. *)
Lemma integer_to_string (n : N) :
  (n < 10 ^ 21)%N -> number_to_string (of_N n) = digits n.
Proof.
  intros B. unfold of_N, number_to_string.
  destruct (Z.of_N n =? 0)%Z eqn:Z0.
  - apply Z.eqb_eq in Z0. assert (n = 0%N) by lia. subst n. reflexivity.
  - rewrite Zabs2N.id.
    pose proof (strip_zeros_spec (digits n)) as S.
    pose proof (digits_length n 21 B ltac:(lia)) as L.
    destruct (strip_zeros (digits n)) as [ds z]. simpl in S.
    rewrite S, length_app, length_zeros in L.
    replace (Z.of_N n <? 0)%Z with false by (symmetry; apply Z.ltb_ge; lia).
    replace ((Z.of_nat (String.length ds) <=? Z.of_nat (String.length ds) + Z.of_nat z + 0)
             && (Z.of_nat (String.length ds) + Z.of_nat z + 0 <=? 21))%Z with true.
    + replace (Z.to_nat (Z.of_nat (String.length ds) + Z.of_nat z + 0
                         - Z.of_nat (String.length ds))) with z by lia.
      rewrite S. reflexivity.
    + symmetry. apply andb_true_intro. split; apply Z.leb_le; lia.
Qed.

(** ** Reading the trace of a run *)

Lemma count_app (p : event -> bool) (a b : list event) :
  count p (a ++ b) = (count p a + count p b)%nat.
Proof. unfold count. rewrite filter_app, List.length_app. reflexivity. Qed.

Lemma count_none (p : event -> bool) (t : list event) :
  (forall e, In e t -> p e = false) -> count p t = O.
Proof.
  unfold count. induction t as [|e t IH]; intros H; [reflexivity|].
  simpl. rewrite (H e (or_introl eq_refl)). apply IH.
  intros e' He'. apply H. right. exact He'.
Qed.

Lemma in_prelude (w : World) (config : Config) (e : event) :
  In e (prelude w config) -> (exists d, e = Mkdirp d) \/ (exists a, e = ConsoleLog a).
Proof.
  unfold prelude, logger. intros H. apply in_app_or in H.
  destruct H as [H|H];
    [destruct (existsSync w [] (migrationsDir config))
    |destruct (existsSync w (made1 w config) (backupsDir config))];
    simpl in H; intuition (subst; eauto).
Qed.

Lemma in_requires (config : Config) (vs : list string) (e : event) :
  In e (requires config vs) -> exists p, e = NodeRequire p.
Proof.
  unfold requires. intros H. apply in_map_iff in H as (v & <- & _). eauto.
Qed.

Lemma in_adds (w : World) (config : Config) (vs : list string) (e : event) :
  In e (adds w config vs) -> exists m, e = MigratorAdd m.
Proof.
  unfold adds. intros H. apply in_map_iff in H as (v & <- & _). eauto.
Qed.

Lemma added_app (a b : list event) : added (a ++ b) = (added a ++ added b)%list.
Proof.
  induction a as [|e a IH]; [reflexivity|].
  destruct e; simpl; rewrite IH; reflexivity.
Qed.

Lemma added_none (t : list event) :
  (forall e, In e t -> is_add e = false) -> added t = [].
Proof.
  induction t as [|e t IH]; intros H; [reflexivity|].
  pose proof (H e (or_introl eq_refl)) as He.
  destruct e; try discriminate He; simpl; apply IH;
    intros e' He'; apply H; right; exact He'.
Qed.

Lemma added_adds (w : World) (config : Config) (vs : list string) :
  added (adds w config vs)
  = map (fun v => require_default w (module_path config v)) vs.
Proof. induction vs as [|v vs IH]; simpl; [reflexivity | rewrite IH; reflexivity]. Qed.

Lemma migrated_to_app (a b : list event) :
  migrated_to (a ++ b) = (migrated_to a ++ migrated_to b)%list.
Proof.
  induction a as [|e a IH]; [reflexivity|].
  destruct e; simpl; rewrite IH; reflexivity.
Qed.

Lemma migrated_to_none (t : list event) :
  (forall e, In e t -> is_migrateTo e = false) -> migrated_to t = [].
Proof.
  induction t as [|e t IH]; intros H; [reflexivity|].
  pose proof (H e (or_introl eq_refl)) as He.
  destruct e; try discriminate He; simpl; apply IH;
    intros e' He'; apply H; right; exact He'.
Qed.

Lemma in_migrated_to (t : list event) (s : value) :
  In (MigratorMigrateTo s) t <-> In s (migrated_to t).
Proof.
  induction t as [|e t IH]; [reflexivity|].
  destruct e; simpl; rewrite <- IH; intuition (try discriminate; try congruence).
Qed.

(** Events of the kinds listed here are none of the others. *)
Ltac quiet :=
  let e := fresh "e" in
  let H := fresh "H" in
  intros e H;
  repeat match goal with
         | H : In _ (_ ++ _) |- _ => apply in_app_or in H; destruct H as [H|H]
         | H : In _ (_ :: _) |- _ => destruct H as [H|H]; [subst; reflexivity|]
         | H : In _ [] |- _ => destruct H
         | H : In _ (prelude _ _) |- _ =>
             apply in_prelude in H; destruct H as [[? ->]|[? ->]]; reflexivity
         | H : In _ (requires _ _) |- _ =>
             apply in_requires in H; destruct H as [? ->]; reflexivity
         | H : In _ (adds _ _ _) |- _ =>
             apply in_adds in H; destruct H as [? ->]; reflexivity
         end.

(** Break [H : In e t] along the pieces of a trace, dropping the pieces
    that cannot hold [e]. *)
Ltac hunt H :=
  repeat match type of H with
         | In _ (_ ++ _) => apply in_app_or in H; destruct H as [H|H]
         | In _ (_ :: _) => destruct H as [H|H]; [try discriminate H|]
         | In _ [] => destruct H
         | In _ (prelude _ _) =>
             apply in_prelude in H; destruct H as [[? H]|[? H]]; discriminate H
         | In _ (requires _ _) =>
             apply in_requires in H; destruct H as [? H]; discriminate H
         | In _ (adds _ _ _) =>
             apply in_adds in H; destruct H as [? H]; discriminate H
         | In _ (map _ _) =>
             apply in_map_iff in H; destruct H as (? & H & _); discriminate H
         end.

Lemma command_given (argv : Argv) (c : string) :
  strict_eq (command argv) (VStr c) = true -> c <> "" ->
  ToBoolean (command argv) = true.
Proof.
  destruct (command argv); try discriminate. simpl.
  intros H N. apply String.eqb_eq in H. subst s. destruct c; [congruence|reflexivity].
Qed.

(** The trace of the [migrate] command. *)
Lemma events_migrate (w : World) (argv : Argv) :
  strict_eq (command argv) (VStr "migrate") = true ->
  events w argv
  = (prelude w (config w argv)
     ++ migrate_trace w argv (config w argv) (versions_of w argv))%list.
Proof.
  intros C. destruct (run_main w argv) as [E _]. rewrite E.
  unfold main_trace. rewrite (command_given argv "migrate" C), C by discriminate.
  reflexivity.
Qed.

Lemma indexOf_absent (xs : list number) (x : number) :
  (forall y, In y xs -> num_eqb y x = false) ->
  forall i, indexOf_from i xs x = (-1)%Z.
Proof.
  induction xs as [|y xs IH]; intros H i; [reflexivity|].
  simpl. rewrite (H y (or_introl eq_refl)). apply IH.
  intros y' Hy'. apply H. right. exact Hy'.
Qed.

Lemma indexOf_present (xs : list number) (x : number) :
  forall i, (0 <= i)%Z -> (indexOf_from i xs x < 0)%Z ->
  forall y, In y xs -> num_eqb y x = false.
Proof.
  induction xs as [|y xs IH]; intros i I H y' Hy'; [destruct Hy'|].
  simpl in H. destruct (num_eqb y x) eqn:E; [lia|].
  destruct Hy' as [<-|Hy']; [exact E|].
  apply (IH (i + 1)%Z); [lia | exact H | exact Hy'].
Qed.

(** The guard fires exactly for a target other than 0 that equals none of
    the versions found. *)
Lemma unknown_version_spec (argv : Argv) (versions : list string) :
  unknown_version argv versions = true
  <-> strict_eq (migration argv) (VNum zero) = false
      /\ forall v, In v versions ->
           num_eqb (parseFloat_string v) (parseFloat (migration argv)) = false.
Proof.
  unfold unknown_version, zero, indexOf, versionsArray. split.
  - intros H. apply andb_prop in H as [N I].
    apply negb_true_iff in N. apply Z.ltb_lt in I. split; [exact N|].
    intros v Hv.
    apply (indexOf_present _ _ 0%Z ltac:(lia) I). apply in_map. exact Hv.
  - intros [N U]. rewrite N. simpl. rewrite indexOf_absent; [reflexivity|].
    intros y Hy. apply in_map_iff in Hy as (v & <- & Hv). apply U. exact Hv.
Qed.

(** ** The [migrate] command *)

(** C1. A target that is not 0 and equals none of the versions found in the
    migrations directory ends the run with the error "This version does not
    exists." and [process.exit()]: nothing of the run reaches the runner or
    the database (only the two directories may have been created before the
    command is looked at).  A target of 0 passes the guard whatever the
    directory holds, and the run goes on to configure the runner. *)
Theorem unknown_target_rejected (w : World) (argv : Argv) :
  strict_eq (command argv) (VStr "migrate") = true ->
  (strict_eq (migration argv) (VNum zero) = false ->
   (forall v, In v (versions_of w argv) ->
      num_eqb (parseFloat_string v) (parseFloat (migration argv)) = false) ->
   events w argv
   = (prelude w (config w argv)
      ++ [logger "error" ["This version does not exists."]])%list
   /\ exited (run (main w argv)) = true
   /\ forall e, In e (events w argv) -> touches_state e = false)
  /\ (strict_eq (migration argv) (VNum zero) = true ->
      In (MigratorConfig (config w argv)) (events w argv)).
Proof.
  intros C. pose proof (events_migrate w argv C) as E. split.
  - intros NZ U.
    assert (G : unknown_version argv (versions_of w argv) = true)
      by (apply unknown_version_spec; split; assumption).
    unfold migrate_trace in E. rewrite G in E.
    split; [exact E|]. split; [apply run_main|].
    rewrite E. quiet.
  - intros Z. rewrite E. apply in_or_app. right.
    unfold migrate_trace, unknown_version. unfold zero in Z. rewrite Z. simpl.
    left. reflexivity.
Qed.

Lemma unknown_target_rejected_witness :
  events (sample_world ["1.0"; "1.1"] false)
         (sample_argv "migrate" (VNum (Dec 2 0)) VUndefined VUndefined)
  = [logger "error" ["This version does not exists."]]
  /\ In (MigratorConfig
           (config (sample_world ["1.0"; "1.1"] false)
                   (sample_argv "migrate" (VNum zero) VUndefined VUndefined)))
        (events (sample_world ["1.0"; "1.1"] false)
                (sample_argv "migrate" (VNum zero) VUndefined VUndefined)).
Proof.
  split.
  - refine (proj1 (proj1 (unknown_target_rejected
                            (sample_world ["1.0"; "1.1"] false)
                            (sample_argv "migrate" (VNum (Dec 2 0)) VUndefined VUndefined)
                            eq_refl) eq_refl _)).
    intros v H. vm_compute in H. destruct H as [<-|[<-|[]]]; reflexivity.
  - exact (proj2 (unknown_target_rejected
                    (sample_world ["1.0"; "1.1"] false)
                    (sample_argv "migrate" (VNum zero) VUndefined VUndefined)
                    eq_refl) eq_refl).
Defined.

(** With backups off, a run that passes the guard calls [migrateTo] right
    after loading the modules, and [add] only afterwards. *)
Lemma events_without_backup (w : World) (argv : Argv) :
  strict_eq (command argv) (VStr "migrate") = true ->
  unknown_version argv (versions_of w argv) = false ->
  ToBoolean (backup (config w argv)) = false ->
  events w argv
  = (prelude w (config w argv)
     ++ MigratorConfig (config w argv)
        :: requires (config w argv) (normalized (versions_of w argv))
     ++ MigratorMigrateTo (target_spec argv)
        :: adds w (config w argv) (normalized (versions_of w argv)))%list.
Proof.
  intros C G B. rewrite (events_migrate w argv C). unfold migrate_trace.
  rewrite G, B. reflexivity.
Qed.

(** C2. With backups off, [migrator.migrateTo] is called before any
    [migrator.add]: the callbacks of [forEach] stop at their first [await]
    and resume only once the main function waits for [migrateTo].  Here the
    directory holds [1.0] and the target is 1. *)
Theorem migrateTo_called_before_add :
  events (sample_world ["1.0"] false)
         (sample_argv "migrate" (VNum one) VUndefined VUndefined)
  = [MigratorConfig
       (config (sample_world ["1.0"] false)
               (sample_argv "migrate" (VNum one) VUndefined VUndefined));
     NodeRequire "/app/migrations/1.0";
     MigratorMigrateTo (VNum one);
     MigratorAdd {| version := VUndefined; name := VStr "/app/migrations/1.0" |}].
Proof. vm_compute. reflexivity. Qed.

(** C3. The dot of the pattern is not escaped: it stands for any code unit
    but a line terminator.  [README.md] is left out and [1.0] is kept, but
    [1a0] is kept too, and is then read as version 1.0. *)
Theorem unescaped_dot_accepts_1a0 :
  discover ["README.md"; "1.0"; "1a0"] = ["1.0"; "1a0"]
  /\ dotted "1a0" = false
  /\ normalized (discover ["README.md"; "1.0"; "1a0"]) = ["1.0"; "1.0"].
Proof. vm_compute. repeat split; reflexivity. Qed.

(** The units handed to [migrator.add] by a run that passes the guard. *)
Lemma added_migrate (w : World) (argv : Argv) :
  strict_eq (command argv) (VStr "migrate") = true ->
  unknown_version argv (versions_of w argv) = false ->
  added (events w argv)
  = map (fun v => require_default w (module_path (config w argv) v))
        (normalized (versions_of w argv)).
Proof.
  intros C G. rewrite (events_migrate w argv C). unfold migrate_trace. rewrite G.
  rewrite added_app, (added_none (prelude _ _)) by quiet.
  cbn [app added]. rewrite added_app, (added_none (requires _ _)) by quiet.
  destruct (ToBoolean (backup (config w argv))); cbn [app added].
  - rewrite added_app, added_adds, (added_none (backup_trace _ _ _)).
    + apply List.app_nil_r.
    + unfold backup_trace.
      destruct (exec_fails w (backupCmd w (config w argv) (stored_version w))); quiet.
  - apply added_adds.
Qed.

(** C4, as the program has it.  The units are handed to the runner in the
    order in which the directory listed their entries, each under its
    version written with one fractional digit; the program does not sort.
    When the listing holds no name twice and every entry kept has a literal
    dot, the versions are the entries kept, hence pairwise distinct. *)
Theorem units_registered_in_listing_order (w : World) (argv : Argv) :
  strict_eq (command argv) (VStr "migrate") = true ->
  unknown_version argv (versions_of w argv) = false ->
  added (events w argv)
  = map (fun v => require_default w
                    (module_path (config w argv) (toFixed1 (parseFloat_string v))))
        (filter digit_any_digit (listing w argv))
  /\ (NoDup (listing w argv) ->
      (forall v, In v (listing w argv) -> digit_any_digit v = true -> dotted v = true) ->
      normalized (versions_of w argv) = filter digit_any_digit (listing w argv)
      /\ NoDup (normalized (versions_of w argv))).
Proof.
  intros C G.
  assert (F : versions_of w argv = filter digit_any_digit (listing w argv)).
  { unfold versions_of, discover. apply filter_ext. apply matches_version_pattern. }
  split.
  - rewrite (added_migrate w argv C G), F. unfold normalized, versionsArray.
    rewrite !map_map. reflexivity.
  - intros N D.
    assert (K : normalized (versions_of w argv) = filter digit_any_digit (listing w argv)).
    { rewrite F. unfold normalized, versionsArray. rewrite map_map.
      rewrite <- (map_id (filter digit_any_digit (listing w argv))) at 2.
      apply map_ext_in. intros v Hv. apply filter_In in Hv as [Hv Hd].
      apply dotted_kept. apply D; assumption. }
    split; [exact K|]. rewrite K. apply NoDup_filter. exact N.
Qed.

Lemma units_registered_in_listing_order_witness :
  added (events (sample_world ["1.1"; "README.md"; "1.0"] false)
                (sample_argv "migrate" (VNum one) VUndefined VUndefined))
  = [ {| version := VUndefined; name := VStr "/app/migrations/1.1" |};
      {| version := VUndefined; name := VStr "/app/migrations/1.0" |} ]
  /\ NoDup (normalized (versions_of (sample_world ["1.1"; "README.md"; "1.0"] false)
                          (sample_argv "migrate" (VNum one) VUndefined VUndefined))).
Proof.
  pose proof (units_registered_in_listing_order
                (sample_world ["1.1"; "README.md"; "1.0"] false)
                (sample_argv "migrate" (VNum one) VUndefined VUndefined)
                eq_refl eq_refl) as [A U].
  split; [exact A|].
  apply U.
  - repeat constructor; simpl; intuition discriminate.
  - intros v H. vm_compute in H.
    destruct H as [<-|[<-|[<-|[]]]]; intros D; try reflexivity; discriminate D.
Defined.

(** C4 as the specification words it fails: the directory lists [1.1] before [1.0] and the
    units reach the runner in that order, which is not ascending. *)
Lemma units_not_sorted :
  added (events (sample_world ["1.1"; "1.0"] false)
                (sample_argv "migrate" (VNum one) VUndefined VUndefined))
  = [ {| version := VUndefined; name := VStr "/app/migrations/1.1" |};
      {| version := VUndefined; name := VStr "/app/migrations/1.0" |} ]
  /\ ascending (versionsArray (versions_of (sample_world ["1.1"; "1.0"] false)
                 (sample_argv "migrate" (VNum one) VUndefined VUndefined))) = false.
Proof. vm_compute. split; reflexivity. Qed.

(** ** Backups *)

(** The trace of a [migrate] run that passes the guard with backups on,
    cut at the dump command. *)
Lemma events_backup (w : World) (argv : Argv) :
  strict_eq (command argv) (VStr "migrate") = true ->
  unknown_version argv (versions_of w argv) = false ->
  ToBoolean (backup (config w argv)) = true ->
  events w argv
  = ((prelude w (config w argv)
      ++ MigratorConfig (config w argv)
         :: requires (config w argv) (normalized (versions_of w argv))
      ++ MigratorGetVersion
         :: adds w (config w argv) (normalized (versions_of w argv))
      ++ [logger "info" ["Creating backup..."]])
     ++ Exec (backupCmd w (config w argv) (stored_version w))
        :: (if exec_fails w (backupCmd w (config w argv) (stored_version w)) then
              [logger "error" ["An error occured while creating backup... Cancelling."];
               ConsoleError]
            else
              [logger "success"
                 [("Backup created : " ++ backupFile w (stored_version w))%string];
               MigratorMigrateTo (target_spec argv)]))%list.
Proof.
  intros C G B. rewrite (events_migrate w argv C).
  unfold migrate_trace, backup_trace. rewrite G, B.
  cbn [app]. rewrite <- !List.app_assoc. cbn [app].
  rewrite <- !List.app_assoc. cbn [app].
  rewrite <- !List.app_assoc. reflexivity.
Qed.

(** A dump command is only issued by such a run, and is the one of
    [createBackup] on the version read from the store. *)
Lemma exec_cases (w : World) (argv : Argv) (cmd : string) :
  In (Exec cmd) (events w argv) ->
  strict_eq (command argv) (VStr "migrate") = true
  /\ unknown_version argv (versions_of w argv) = false
  /\ ToBoolean (backup (config w argv)) = true
  /\ cmd = backupCmd w (config w argv) (stored_version w).
Proof.
  destruct (run_main w argv) as [E _]. rewrite E. unfold main_trace.
  intros H.
  destruct (negb (ToBoolean (command argv))); [hunt H|].
  destruct (strict_eq (command argv) (VStr "migrate")).
  - unfold migrate_trace, backup_trace in H.
    destruct (unknown_version argv (versions_of w argv));
      destruct (ToBoolean (backup (config w argv)));
      destruct (exec_fails w (backupCmd w (config w argv) (stored_version w)));
      hunt H; repeat split; congruence.
  - destruct (strict_eq (command argv) (VStr "list"));
      [|destruct (strict_eq (command argv) (VStr "status"))];
      hunt H.
Qed.

(** C5. In a run of [migrate] that passes the guard with backups enabled,
    the dump command is issued exactly once, after [getVersion] and before
    any call of [migrateTo] (inside which alone units execute); when the dump
    fails the run exits and [migrateTo] is never called.  With backups
    disabled no dump command is issued at all. *)
Theorem backup_once_before_migration (w : World) (argv : Argv) :
  strict_eq (command argv) (VStr "migrate") = true ->
  (ToBoolean (backup (config w argv)) = true ->
   unknown_version argv (versions_of w argv) = false ->
   exists before after,
     events w argv
     = (before ++ Exec (backupCmd w (config w argv) (stored_version w)) :: after)%list
     /\ count is_exec before = O
     /\ count is_exec after = O
     /\ count is_migrateTo before = O
     /\ (exec_fails w (backupCmd w (config w argv) (stored_version w)) = true ->
         count is_migrateTo after = O /\ exited (run (main w argv)) = true)
     /\ (exec_fails w (backupCmd w (config w argv) (stored_version w)) = false ->
         count is_migrateTo after = 1%nat))
  /\ (ToBoolean (backup (config w argv)) = false ->
      count is_exec (events w argv) = O).
Proof.
  intros C. split.
  - intros B G. pose proof (events_backup w argv C G B) as E.
    eexists. eexists. split; [exact E|].
    split; [apply count_none; quiet|].
    split.
    { destruct (exec_fails w (backupCmd w (config w argv) (stored_version w)));
        reflexivity. }
    split; [apply count_none; quiet|].
    split; intros F; rewrite F.
    + split; [reflexivity | apply run_main].
    + reflexivity.
  - intros B. rewrite (events_migrate w argv C). unfold migrate_trace.
    destruct (unknown_version argv (versions_of w argv)).
    + apply count_none. quiet.
    + rewrite B. apply count_none. quiet.
Qed.

Lemma backup_once_before_migration_witness :
  count is_exec (events (sample_world ["1.0"; "1.1"] true)
                        (sample_argv "migrate" (VNum one) VUndefined (VBool true)))
  = 1%nat
  /\ count is_migrateTo (events (sample_world ["1.0"; "1.1"] true)
                          (sample_argv "migrate" (VNum one) VUndefined (VBool true)))
     = O
  /\ count is_exec (events (sample_world ["1.0"; "1.1"] false)
                     (sample_argv "migrate" (VNum one) VUndefined VUndefined))
     = O.
Proof.
  destruct (backup_once_before_migration
              (sample_world ["1.0"; "1.1"] true)
              (sample_argv "migrate" (VNum one) VUndefined (VBool true)) eq_refl)
    as [H _].
  destruct (H eq_refl eq_refl) as (before & after & E & B1 & A1 & B2 & F & _).
  destruct (F eq_refl) as [A2 _].
  split; [|split].
  - rewrite E, count_app. unfold count at 2. cbn [filter is_exec List.length].
    unfold count in A1. rewrite B1, A1. reflexivity.
  - rewrite E, count_app. unfold count at 2. cbn [filter is_migrateTo List.length].
    unfold count in A2. rewrite B2, A2. reflexivity.
  - exact (proj2 (backup_once_before_migration
                    (sample_world ["1.0"; "1.1"] false)
                    (sample_argv "migrate" (VNum one) VUndefined VUndefined) eq_refl)
                 eq_refl).
Defined.

(** C6. Every dump command of a run is issued after [getVersion] was
    called and names its archive [<version>_<timestamp>.gz] inside the
    backups directory: the version is the one read from the store, printed by
    [toFixed(1)], the timestamp is [Date.now()].  For a stored version that
    is finite and below 10^21 in magnitude the first part is digits, a dot
    and exactly one digit (after a minus sign for a negative one); a
    timestamp below 10^21 is printed as its decimal digits. *)
Theorem backup_archive_name (w : World) (argv : Argv) (cmd : string) :
  In (Exec cmd) (events w argv) ->
  cmd = join_item (mongodumpBinary (config w argv))
        ++ " --host localhost:27017 --archive="
        ++ backupsDir (config w argv) ++ "/"
        ++ (toFixed1 (stored_version w) ++ "_"
            ++ number_to_string (of_N (now w)) ++ ".gz")
        ++ " --gzip --db underbase_test"
  /\ (exists before after,
        events w argv = (before ++ Exec cmd :: after)%list
        /\ In MigratorGetVersion before)
  /\ (fixed_range (stored_version w) = true ->
      fixed1 (toFixed1 (stored_version w)) = true)
  /\ ((now w < 10 ^ 21)%N -> number_to_string (of_N (now w)) = digits (now w)).
Proof.
  intros H. apply exec_cases in H as (C & G & B & ->).
  split; [|split; [|split; [apply toFixed1_shape | apply integer_to_string]]].
  - unfold backupCmd, backupFile, join, host, database. cbn [concat ToString].
    rewrite !append_assoc. reflexivity.
  - eexists. eexists. split; [apply (events_backup w argv C G B)|].
    apply in_or_app. right. right. apply in_or_app. right. left. reflexivity.
Qed.

Lemma backup_archive_name_witness :
  "mongodump --host localhost:27017 --archive=/app/migrations/backups/1.1_1700000000000.gz --gzip --db underbase_test"
  = join_item (VStr "mongodump")
    ++ " --host localhost:27017 --archive="
    ++ "/app/migrations/backups" ++ "/"
    ++ (toFixed1 (Dec 11 (-1)) ++ "_" ++ number_to_string (of_N 1700000000000) ++ ".gz")
    ++ " --gzip --db underbase_test"
  /\ fixed1 (toFixed1 (Dec 11 (-1))) = true
  /\ number_to_string (of_N 1700000000000) = digits 1700000000000.
Proof.
  destruct (backup_archive_name
              (sample_world ["1.0"; "1.1"] false)
              (sample_argv "migrate" (VNum one) VUndefined (VBool true))
              "mongodump --host localhost:27017 --archive=/app/migrations/backups/1.1_1700000000000.gz --gzip --db underbase_test")
    as (A & _ & B & C).
  - vm_compute. do 7 right. left. reflexivity.
  - split; [exact A|]. split; [apply B; reflexivity | apply C; reflexivity].
Defined.

(** ** Versions *)

(** C7, as the program has it.  Every version the discovery hands on is
    written as digits, a dot and exactly one digit, and stands for a number
    that is not negative; zero is not left out. *)
Theorem accepted_versions_one_fraction_digit (entries : list string) (v : string) :
  In v (normalized (discover entries)) ->
  unsigned_fixed1 v = true
  /\ exists entry,
       In entry entries
       /\ v = toFixed1 (parseFloat_string entry)
       /\ num_nonneg (parseFloat_string entry) = true.
Proof.
  unfold normalized, versionsArray. rewrite map_map. intros H.
  apply in_map_iff in H as (entry & <- & H).
  apply discover_spec in H as [H D].
  pose proof (accepted_plain entry D) as P. unfold plain_version in P.
  apply andb_prop in P as [R N].
  split; [apply toFixed1_unsigned; assumption|].
  exists entry. repeat split; assumption.
Qed.

Lemma accepted_versions_one_fraction_digit_witness :
  unsigned_fixed1 "1.1" = true
  /\ exists entry,
       In entry ["README.md"; "1.1"]
       /\ "1.1" = toFixed1 (parseFloat_string entry)
       /\ num_nonneg (parseFloat_string entry) = true.
Proof.
  apply (accepted_versions_one_fraction_digit ["README.md"; "1.1"] "1.1").
  vm_compute. left. reflexivity.
Defined.

(** C7 as the specification words it fails: an entry named [0.0] is kept, normalised to
    "0.0" and handed to the runner, and its version is not above zero. *)
Lemma version_zero_registered :
  normalized (discover ["0.0"]) = ["0.0"]
  /\ num_ltb zero (parseFloat_string "0.0") = false
  /\ added (events (sample_world ["0.0"] false)
                   (sample_argv "migrate" (VNum zero) VUndefined VUndefined))
     = [ {| version := VUndefined; name := VStr "/app/migrations/0.0" |} ].
Proof. vm_compute. repeat split; reflexivity. Qed.

(** ** The configuration handed to the runner *)

Lemma configured_with (w : World) (argv : Argv) (c : Config) :
  In (MigratorConfig c) (events w argv) -> c = config w argv.
Proof.
  destruct (run_main w argv) as [E _]. rewrite E. unfold main_trace.
  intros H.
  destruct (negb (ToBoolean (command argv))); [hunt H|].
  destruct (strict_eq (command argv) (VStr "migrate")).
  - unfold migrate_trace, backup_trace in H.
    destruct (unknown_version argv (versions_of w argv));
      destruct (ToBoolean (backup (config w argv)));
      destruct (exec_fails w (backupCmd w (config w argv) (stored_version w)));
      hunt H; congruence.
  - destruct (strict_eq (command argv) (VStr "list"));
      [|destruct (strict_eq (command argv) (VStr "status"))];
      hunt H; congruence.
Qed.

(** C8, as the program has it.  [logIfLatest] is the constant [true] in
    the configuration the program builds, and every configuration it hands
    to the runner carries [true]: no option and no config file turns the
    notice off. *)
Theorem logIfLatest_always_true (w : World) (argv : Argv) :
  logIfLatest (config w argv) = VBool true
  /\ forall c, In (MigratorConfig c) (events w argv) -> logIfLatest c = VBool true.
Proof.
  split; [reflexivity|].
  intros c H. rewrite (configured_with w argv c H). reflexivity.
Qed.

Lemma logIfLatest_always_true_witness :
  logIfLatest (config (sample_world ["1.0"] false)
                      (sample_argv "status" VUndefined VUndefined VUndefined))
  = VBool true.
Proof.
  apply (proj2 (logIfLatest_always_true
                  (sample_world ["1.0"] false)
                  (sample_argv "status" VUndefined VUndefined VUndefined))).
  vm_compute. left. reflexivity.
Defined.

(** C8 as the specification words it fails: no world and no arguments make the program pass
    a false [logIfLatest]. *)
Lemma notice_never_suppressed :
  ~ exists w argv, ToBoolean (logIfLatest (config w argv)) = false.
Proof. intros (w & argv & H). discriminate H. Qed.

(** C10. [argv.logs || configFile.logs || true] is never false, nor any
    other value that counts as false; when both operands are booleans or
    absent, as their types declare, it is exactly [true]. *)
Theorem logs_always_on (w : World) (argv : Argv) :
  ToBoolean (logs (config w argv)) = true
  /\ logs (config w argv) <> VBool false
  /\ (boolean_or_absent (a_logs argv) = true ->
      boolean_or_absent (cf_logs (configFile w argv)) = true ->
      logs (config w argv) = VBool true).
Proof.
  cbn [config logs]. unfold or.
  destruct (ToBoolean (a_logs argv)) eqn:A.
  - rewrite A. split; [exact A|]. split.
    + intros H. rewrite H in A. discriminate A.
    + intros B _. destruct (a_logs argv) as [| |[]| |]; try discriminate; reflexivity.
  - destruct (ToBoolean (cf_logs (configFile w argv))) eqn:F.
    + split; [exact F|]. split.
      * intros H. rewrite H in F. discriminate F.
      * intros _ B.
        destruct (cf_logs (configFile w argv)) as [| |[]| |]; try discriminate; reflexivity.
    + repeat split. discriminate.
Qed.

Lemma logs_always_on_witness :
  logs (config (sample_world [] false)
               {| command := VStr "status"; migration := VUndefined; rerun := VUndefined;
                  a_config := VUndefined; a_chdir := VUndefined; a_logs := VBool false;
                  a_collectionName := VUndefined; a_db := VUndefined;
                  a_backup := VUndefined; a_backupsDir := VUndefined;
                  a_migrationsDir := VUndefined; a_mongodumpBinary := VUndefined |})
  = VBool true.
Proof.
  apply (proj2 (proj2 (logs_always_on (sample_world [] false) _))); reflexivity.
Defined.

(** ** The target handed to the runner *)

Lemma migrated_main (w : World) (argv : Argv) :
  migrated_to (events w argv) = [] \/ migrated_to (events w argv) = [target_spec argv].
Proof.
  destruct (run_main w argv) as [E _]. rewrite E. unfold main_trace.
  destruct (negb (ToBoolean (command argv))); [left; reflexivity|].
  rewrite migrated_to_app, (migrated_to_none (prelude _ _)) by quiet. cbn [app].
  destruct (strict_eq (command argv) (VStr "migrate")).
  - unfold migrate_trace.
    destruct (unknown_version argv (versions_of w argv)); [left; reflexivity|].
    cbn [migrated_to].
    rewrite migrated_to_app, (migrated_to_none (requires _ _)) by quiet. cbn [app].
    destruct (ToBoolean (backup (config w argv))); cbn [migrated_to].
    + rewrite migrated_to_app, (migrated_to_none (adds _ _ _)) by quiet.
      unfold backup_trace.
      destruct (exec_fails w (backupCmd w (config w argv) (stored_version w)));
        [left|right]; reflexivity.
    + right. rewrite (migrated_to_none (adds _ _ _)) by quiet. reflexivity.
  - destruct (strict_eq (command argv) (VStr "list")).
    + left. cbn [migrated_to logger]. apply migrated_to_none.
      intros e H. apply in_map_iff in H as (v & <- & _). reflexivity.
    + destruct (strict_eq (command argv) (VStr "status")); left; reflexivity.
Qed.

(** C9. Whatever [migrateTo] is called with is the requested version as
    given when [rerun] is off, and the string made of the requested version
    and the suffix [,rerun] when it is on; for a numeric request that is
    [<number>] or [<number>,rerun].  A run of [migrate] that passes the guard,
    with backups off or a dump that succeeds, makes exactly that one call. *)
Theorem target_spec_grammar (w : World) (argv : Argv) :
  (forall spec, In (MigratorMigrateTo spec) (events w argv) ->
     (ToBoolean (rerun argv) = true ->
      spec = VStr (ToString (migration argv) ++ ",rerun"))
     /\ (ToBoolean (rerun argv) = false -> spec = migration argv)
     /\ (forall n, migration argv = VNum n ->
         spec = VNum n \/ spec = VStr (number_to_string n ++ ",rerun")))
  /\ (strict_eq (command argv) (VStr "migrate") = true ->
      unknown_version argv (versions_of w argv) = false ->
      (ToBoolean (backup (config w argv)) = true ->
       exec_fails w (backupCmd w (config w argv) (stored_version w)) = false) ->
      migrated_to (events w argv)
      = [if ToBoolean (rerun argv) then VStr (ToString (migration argv) ++ ",rerun")
         else migration argv]).
Proof.
  split.
  - intros spec H. apply in_migrated_to in H.
    destruct (migrated_main w argv) as [E|E]; rewrite E in H; [destruct H|].
    destruct H as [<-|[]]. unfold target_spec.
    destruct (ToBoolean (rerun argv)).
    + split; [reflexivity|]. split; [discriminate|].
      intros n ->. right. reflexivity.
    + split; [discriminate|]. split; [reflexivity|].
      intros n ->. left. reflexivity.
  - intros C G B. rewrite (events_migrate w argv C). unfold migrate_trace.
    rewrite G, migrated_to_app, (migrated_to_none (prelude _ _)) by quiet.
    cbn [app migrated_to].
    rewrite migrated_to_app, (migrated_to_none (requires _ _)) by quiet. cbn [app].
    fold (target_spec argv).
    destruct (ToBoolean (backup (config w argv))); cbn [migrated_to].
    + rewrite migrated_to_app, (migrated_to_none (adds _ _ _)) by quiet.
      unfold backup_trace. rewrite (B eq_refl). reflexivity.
    + rewrite (migrated_to_none (adds _ _ _)) by quiet. reflexivity.
Qed.

Lemma target_spec_grammar_witness :
  migrated_to (events (sample_world ["1.0"; "1.1"] false)
                      (sample_argv "migrate" (VNum (Dec 11 (-1))) (VBool true) (VBool true)))
  = [VStr "1.1,rerun"]
  /\ migrated_to (events (sample_world ["1.0"; "1.1"] false)
                         (sample_argv "migrate" (VNum (Dec 11 (-1))) VUndefined VUndefined))
     = [VNum (Dec 11 (-1))]
  /\ (VStr "1.1,rerun" = VNum (Dec 11 (-1))
      \/ VStr "1.1,rerun" = VStr (number_to_string (Dec 11 (-1)) ++ ",rerun")).
Proof.
  split; [|split].
  - exact (proj2 (target_spec_grammar
                    (sample_world ["1.0"; "1.1"] false)
                    (sample_argv "migrate" (VNum (Dec 11 (-1))) (VBool true) (VBool true)))
                 eq_refl eq_refl (fun _ => eq_refl)).
  - exact (proj2 (target_spec_grammar
                    (sample_world ["1.0"; "1.1"] false)
                    (sample_argv "migrate" (VNum (Dec 11 (-1))) VUndefined VUndefined))
                 eq_refl eq_refl (fun _ => eq_refl)).
  - refine (proj2 (proj2 (proj1 (target_spec_grammar
                    (sample_world ["1.0"; "1.1"] false)
                    (sample_argv "migrate" (VNum (Dec 11 (-1))) (VBool true) (VBool true)))
                 (VStr "1.1,rerun") _)) (Dec 11 (-1)) eq_refl).
    vm_compute. do 9 right. left. reflexivity.
Defined.

(** ** The other commands *)

Lemma command_is (argv : Argv) (c : string) :
  strict_eq (command argv) (VStr c) = true -> command argv = VStr c.
Proof.
  destruct (command argv); try discriminate. simpl.
  intros H. apply String.eqb_eq in H. subst s. reflexivity.
Qed.

Lemma required_app (a b : list event) :
  required (a ++ b) = (required a ++ required b)%list.
Proof.
  induction a as [|e a IH]; [reflexivity|].
  destruct e; simpl; rewrite IH; reflexivity.
Qed.

Lemma required_none (t : list event) :
  (forall e, In e t -> is_require e = false) -> required t = [].
Proof.
  induction t as [|e t IH]; intros H; [reflexivity|].
  pose proof (H e (or_introl eq_refl)) as He.
  destruct e; try discriminate He; simpl; apply IH;
    intros e' He'; apply H; right; exact He'.
Qed.

(** X1. The [list] command prints its heading and then every entry the
    pattern keeps, by the name the directory gave it and in the order of the
    listing; it calls neither the runner nor the dump, whatever the options,
    and exits. *)
Theorem list_prints_kept_entries (w : World) (argv : Argv) :
  strict_eq (command argv) (VStr "list") = true ->
  events w argv
  = (prelude w (config w argv)
     ++ logger "info" ["Versions list based on folders"]
        :: map (fun v => ConsoleLog [v]) (filter digit_any_digit (listing w argv)))%list
  /\ (forall e, In e (events w argv) -> touches_state e = false)
  /\ exited (run (main w argv)) = true.
Proof.
  intros C. destruct (run_main w argv) as [E X].
  assert (T : events w argv
              = (prelude w (config w argv)
                 ++ logger "info" ["Versions list based on folders"]
                    :: map (fun v => ConsoleLog [v])
                           (filter digit_any_digit (listing w argv)))%list).
  { rewrite E. unfold main_trace.
    rewrite (command_given argv "list" C) by discriminate.
    rewrite (command_is argv "list" C). cbn [negb strict_eq String.eqb Ascii.eqb Bool.eqb].
    unfold versions_of, discover.
    rewrite (filter_ext _ _ matches_version_pattern). reflexivity. }
  split; [exact T|]. split; [|exact X].
  rewrite T. intros e H. apply in_app_or in H as [H|H].
  - apply in_prelude in H as [[d ->]|[a ->]]; reflexivity.
  - destruct H as [<-|H]; [reflexivity|].
    apply in_map_iff in H as (v & <- & _). reflexivity.
Qed.

Lemma list_prints_kept_entries_witness :
  events (sample_world ["1.1"; "README.md"; "1a0"; "1.0"] false)
         (sample_argv "list" VUndefined VUndefined (VBool true))
  = [ConsoleLog ["[info]"; "Versions list based on folders"];
     ConsoleLog ["1.1"]; ConsoleLog ["1a0"]; ConsoleLog ["1.0"]].
Proof.
  exact (proj1 (list_prints_kept_entries
                  (sample_world ["1.1"; "README.md"; "1a0"; "1.0"] false)
                  (sample_argv "list" VUndefined VUndefined (VBool true))
                  eq_refl)).
Defined.

(** X2. The [status] command configures the runner, asks it for the
    current version and prints "Current version is <version>"; it loads no
    module, adds no unit, dumps nothing and never calls [migrateTo], whatever
    the directory holds and whether backups are on or not. *)
Theorem status_reads_the_version (w : World) (argv : Argv) :
  strict_eq (command argv) (VStr "status") = true ->
  events w argv
  = (prelude w (config w argv)
     ++ [MigratorConfig (config w argv); MigratorGetVersion;
         logger "info"
           [("Current version is " ++ number_to_string (stored_version w))%string]])%list
  /\ required (events w argv) = []
  /\ added (events w argv) = []
  /\ migrated_to (events w argv) = []
  /\ count is_exec (events w argv) = O.
Proof.
  intros C. destruct (run_main w argv) as [E _].
  assert (T : events w argv
              = (prelude w (config w argv)
                 ++ [MigratorConfig (config w argv); MigratorGetVersion;
                     logger "info"
                       [("Current version is "
                         ++ number_to_string (stored_version w))%string]])%list).
  { rewrite E. unfold main_trace.
    rewrite (command_given argv "status" C) by discriminate.
    rewrite (command_is argv "status" C). reflexivity. }
  split; [exact T|]. rewrite T.
  assert (Q : forall p : event -> bool,
             p (MigratorConfig (config w argv)) = false ->
             p MigratorGetVersion = false ->
             (forall a, p (ConsoleLog a) = false) ->
             (forall d, p (Mkdirp d) = false) ->
             forall e,
               In e (prelude w (config w argv)
                     ++ [MigratorConfig (config w argv); MigratorGetVersion;
                         logger "info"
                           [("Current version is "
                             ++ number_to_string (stored_version w))%string]])%list ->
               p e = false).
  { intros p P1 P2 P3 P4 e H. apply in_app_or in H as [H|H].
    - apply in_prelude in H as [[d ->]|[a ->]]; auto.
    - destruct H as [<-|[<-|[<-|[]]]]; auto. apply P3. }
  split; [|split; [|split]].
  - apply required_none. apply Q; reflexivity.
  - apply added_none. apply Q; reflexivity.
  - apply migrated_to_none. apply Q; reflexivity.
  - apply count_none. apply Q; reflexivity.
Qed.

Lemma status_reads_the_version_witness :
  events (sample_world ["1.0"; "1.1"] true)
         (sample_argv "status" VUndefined VUndefined (VBool true))
  = [MigratorConfig (config (sample_world ["1.0"; "1.1"] true)
                            (sample_argv "status" VUndefined VUndefined (VBool true)));
     MigratorGetVersion;
     ConsoleLog ["[info]"; "Current version is 1.1"]].
Proof.
  exact (proj1 (status_reads_the_version
                  (sample_world ["1.0"; "1.1"] true)
                  (sample_argv "status" VUndefined VUndefined (VBool true))
                  eq_refl)).
Defined.

(** X3. Without a command the program reports "Invalid command" and
    exits at once: no directory is created, even when both are missing, and
    nothing else happens. *)
Theorem missing_command_exits_at_once (w : World) (argv : Argv) :
  ToBoolean (command argv) = false ->
  events w argv = [invalid_command] /\ exited (run (main w argv)) = true.
Proof.
  intros C. destruct (run_main w argv) as [E X]. split; [|exact X].
  rewrite E. unfold main_trace. rewrite C. reflexivity.
Qed.

Lemma missing_command_exits_at_once_witness :
  events (bare_world ["1.0"]) no_command = [invalid_command].
Proof.
  exact (proj1 (missing_command_exits_at_once (bare_world ["1.0"]) no_command eq_refl)).
Defined.

(** X4. A command other than [migrate], [list] and [status] is reported
    as invalid only after the start-up: the migrations and backups
    directories are created when missing, then the program reports and exits
    without a call to the runner. *)
Theorem unknown_command_after_startup (w : World) (argv : Argv) :
  ToBoolean (command argv) = true ->
  strict_eq (command argv) (VStr "migrate") = false ->
  strict_eq (command argv) (VStr "list") = false ->
  strict_eq (command argv) (VStr "status") = false ->
  events w argv = (prelude w (config w argv) ++ [invalid_command])%list
  /\ (forall e, In e (events w argv) -> touches_state e = false)
  /\ exited (run (main w argv)) = true.
Proof.
  intros C M L S. destruct (run_main w argv) as [E X].
  assert (T : events w argv = (prelude w (config w argv) ++ [invalid_command])%list).
  { rewrite E. unfold main_trace. rewrite C, M, L, S. reflexivity. }
  split; [exact T|]. split; [|exact X].
  rewrite T. quiet.
Qed.

Lemma unknown_command_after_startup_witness :
  events (bare_world ["1.0"]) (sample_argv "restore" VUndefined VUndefined VUndefined)
  = [Mkdirp "/app/migrations";
     ConsoleLog ["[info]"; "Created migration directory."];
     Mkdirp "/app/migrations/backups";
     ConsoleLog ["[info]"; "Created backup directory."];
     invalid_command].
Proof.
  exact (proj1 (unknown_command_after_startup
                  (bare_world ["1.0"])
                  (sample_argv "restore" VUndefined VUndefined VUndefined)
                  eq_refl eq_refl eq_refl eq_refl)).
Defined.

(** ** Start-up and the order of calls *)

Lemma mkdirp_in_prelude (w : World) (config : Config) (d : string) :
  In (Mkdirp d) (prelude w config)
  <-> (d = migrationsDir config /\ existsSync w [] d = false)
      \/ (d = backupsDir config /\ existsSync w (made1 w config) d = false).
Proof.
  unfold prelude, logger. rewrite in_app_iff.
  destruct (existsSync w [] (migrationsDir config)) eqn:E1;
    destruct (existsSync w (made1 w config) (backupsDir config)) eqn:E2;
    simpl; split; intros H;
    repeat match goal with
           | H : _ \/ _ |- _ => destruct H as [H|H]
           | H : _ /\ _ |- _ => destruct H as [? H]
           | H : False |- _ => destruct H
           | H : Mkdirp _ = Mkdirp _ |- _ => injection H as <-
           | H : ConsoleLog _ = Mkdirp _ |- _ => discriminate H
           end; subst; try congruence; auto.
Qed.

Lemma no_mkdirp_after_startup (w : World) (argv : Argv) (d : string) :
  ~ In (Mkdirp d)
       (if strict_eq (command argv) (VStr "migrate") then
          migrate_trace w argv (config w argv) (versions_of w argv)
        else if strict_eq (command argv) (VStr "list") then
          logger "info" ["Versions list based on folders"]
          :: map (fun v => ConsoleLog [v]) (versions_of w argv)
        else if strict_eq (command argv) (VStr "status") then
          [MigratorConfig (config w argv); MigratorGetVersion;
           logger "info"
             [("Current version is " ++ number_to_string (stored_version w))%string]]
        else [invalid_command]).
Proof.
  intros H.
  destruct (strict_eq (command argv) (VStr "migrate")).
  - unfold migrate_trace, backup_trace in H.
    destruct (unknown_version argv (versions_of w argv));
      destruct (ToBoolean (backup (config w argv)));
      destruct (exec_fails w (backupCmd w (config w argv) (stored_version w)));
      hunt H.
  - destruct (strict_eq (command argv) (VStr "list"));
      [|destruct (strict_eq (command argv) (VStr "status"))];
      hunt H.
Qed.

(** X5. The program creates a directory only at start-up, only when a
    command is given, and only the migrations or the backups directory when
    [existsSync] reports it missing; conversely each of the two that is
    missing is created. *)
Theorem mkdirp_only_what_is_missing (w : World) (argv : Argv) (d : string) :
  In (Mkdirp d) (events w argv)
  <-> ToBoolean (command argv) = true
      /\ ((d = migrationsDir (config w argv) /\ existsSync w [] d = false)
          \/ (d = backupsDir (config w argv)
              /\ existsSync w (made1 w (config w argv)) d = false)).
Proof.
  destruct (run_main w argv) as [E _]. rewrite E. unfold main_trace.
  destruct (ToBoolean (command argv)); cbn [negb].
  - rewrite in_app_iff, mkdirp_in_prelude. split.
    + intros [H|H]; [split; [reflexivity | exact H]|].
      destruct (no_mkdirp_after_startup w argv d H).
    + intros [_ H]. left. exact H.
  - split.
    + intros [H|[]]. discriminate H.
    + intros [H _]. discriminate H.
Qed.

Lemma mkdirp_only_what_is_missing_witness :
  In (Mkdirp "/app/migrations/backups")
     (events (bare_world ["1.0"]) (sample_argv "list" VUndefined VUndefined VUndefined))
  /\ ~ In (Mkdirp "/app/migrations")
          (events (sample_world ["1.0"] false)
                  (sample_argv "list" VUndefined VUndefined VUndefined)).
Proof.
  split.
  - apply (proj2 (mkdirp_only_what_is_missing
                    (bare_world ["1.0"])
                    (sample_argv "list" VUndefined VUndefined VUndefined)
                    "/app/migrations/backups")).
    split; [reflexivity|]. right. split; reflexivity.
  - intros H.
    apply (proj1 (mkdirp_only_what_is_missing
                    (sample_world ["1.0"] false)
                    (sample_argv "list" VUndefined VUndefined VUndefined)
                    "/app/migrations")) in H.
    destruct H as [_ [[_ H]|[_ H]]]; discriminate H.
Defined.

Lemma find_app (p : event -> bool) (a b : list event) :
  find p (a ++ b) = match find p a with Some e => Some e | None => find p b end.
Proof.
  induction a as [|e a IH]; [reflexivity|].
  simpl. destruct (p e); [reflexivity | exact IH].
Qed.

Lemma find_quiet (p : event -> bool) (t : list event) :
  (forall e, In e t -> p e = false) -> find p t = None.
Proof.
  induction t as [|e t IH]; intros H; [reflexivity|].
  simpl. rewrite (H e (or_introl eq_refl)). apply IH.
  intros e' He'. apply H. right. exact He'.
Qed.

(** X6. In every run the first call that reaches the runner or the
    database, if there is one, is [migrator.config] with the configuration
    the program built: no unit is added, no version read, no dump started
    and no migration asked for before the runner is configured. *)
Theorem runner_configured_first (w : World) (argv : Argv) :
  first_touch (events w argv) = None
  \/ first_touch (events w argv) = Some (MigratorConfig (config w argv)).
Proof.
  destruct (run_main w argv) as [E _]. rewrite E. unfold main_trace, first_touch.
  destruct (negb (ToBoolean (command argv))); [left; reflexivity|].
  rewrite find_app, (find_quiet touches_state (prelude _ _)) by quiet.
  destruct (strict_eq (command argv) (VStr "migrate")).
  - unfold migrate_trace.
    destruct (unknown_version argv (versions_of w argv)); [left|right]; reflexivity.
  - destruct (strict_eq (command argv) (VStr "list")).
    + left. cbn [find logger touches_state]. apply find_quiet.
      intros e H. apply in_map_iff in H as (v & <- & _). reflexivity.
    + destruct (strict_eq (command argv) (VStr "status")); [right|left]; reflexivity.
Qed.

Lemma required_requires (config : Config) (vs : list string) :
  required (requires config vs) = map (module_path config) vs.
Proof. induction vs as [|v vs IH]; simpl; [reflexivity | rewrite IH; reflexivity]. Qed.

(** X7. In every run the units handed to [migrator.add] are the default
    exports of the modules the program loaded, one for one and in the order
    of loading; this holds for a run whose dump fails as well, and a run that
    loads nothing adds nothing. *)
Theorem loaded_modules_are_added (w : World) (argv : Argv) :
  added (events w argv) = map (require_default w) (required (events w argv)).
Proof.
  destruct (run_main w argv) as [E _]. rewrite E. unfold main_trace.
  destruct (negb (ToBoolean (command argv))); [reflexivity|].
  rewrite added_app, required_app.
  rewrite (added_none (prelude _ _)), (required_none (prelude _ _)) by quiet.
  cbn [app].
  destruct (strict_eq (command argv) (VStr "migrate")).
  - unfold migrate_trace.
    destruct (unknown_version argv (versions_of w argv)); [reflexivity|].
    cbn [added required]. rewrite added_app, required_app.
    rewrite (added_none (requires _ _)), required_requires by quiet. cbn [app].
    assert (B : added (backup_trace w argv (config w argv)) = []
                /\ required (backup_trace w argv (config w argv)) = []).
    { unfold backup_trace.
      destruct (exec_fails w (backupCmd w (config w argv) (stored_version w)));
        split; reflexivity. }
    destruct B as [B1 B2].
    destruct (ToBoolean (backup (config w argv))); cbn [added required];
      try rewrite added_app, required_app, B1, B2;
      rewrite added_adds, (required_none (adds _ _ _)) by quiet;
      rewrite !List.app_nil_r, map_map; reflexivity.
  - destruct (strict_eq (command argv) (VStr "list")).
    + cbn [added required logger].
      rewrite added_none, required_none; [reflexivity| |];
        intros e H; apply in_map_iff in H as (v & <- & _); reflexivity.
    + destruct (strict_eq (command argv) (VStr "status")); reflexivity.
Qed.

(** X8. With backups on, a [migrate] run that passes the guard and whose
    dump succeeds ends with its only call of [migrateTo], and every unit has
    been handed to [migrator.add] before it. *)
Theorem with_backup_units_added_before_migrateTo (w : World) (argv : Argv) :
  strict_eq (command argv) (VStr "migrate") = true ->
  unknown_version argv (versions_of w argv) = false ->
  ToBoolean (backup (config w argv)) = true ->
  exec_fails w (backupCmd w (config w argv) (stored_version w)) = false ->
  exists before,
    events w argv = (before ++ [MigratorMigrateTo (target_spec argv)])%list
    /\ added before
       = map (fun v => require_default w (module_path (config w argv) v))
             (normalized (versions_of w argv))
    /\ migrated_to before = [].
Proof.
  intros C G B F. pose proof (events_backup w argv C G B) as E. rewrite F in E.
  pose proof (added_migrate w argv C G) as A.
  exists (prelude w (config w argv)
          ++ MigratorConfig (config w argv)
             :: requires (config w argv) (normalized (versions_of w argv))
          ++ MigratorGetVersion
             :: adds w (config w argv) (normalized (versions_of w argv))
          ++ [logger "info" ["Creating backup..."];
              Exec (backupCmd w (config w argv) (stored_version w));
              logger "success"
                [("Backup created : " ++ backupFile w (stored_version w))%string]])%list.
  assert (S : events w argv
              = ((prelude w (config w argv)
                  ++ MigratorConfig (config w argv)
                     :: requires (config w argv) (normalized (versions_of w argv))
                  ++ MigratorGetVersion
                     :: adds w (config w argv) (normalized (versions_of w argv))
                  ++ [logger "info" ["Creating backup..."];
                      Exec (backupCmd w (config w argv) (stored_version w));
                      logger "success"
                        [("Backup created : "
                          ++ backupFile w (stored_version w))%string]])
                 ++ [MigratorMigrateTo (target_spec argv)])%list).
  { rewrite E. rewrite <- !List.app_assoc. cbn [app].
    rewrite <- !List.app_assoc. cbn [app]. rewrite <- !List.app_assoc. reflexivity. }
  split; [exact S|]. split.
  - rewrite S, added_app in A. cbn [added] in A. rewrite List.app_nil_r in A. exact A.
  - apply migrated_to_none. quiet.
Qed.

Lemma with_backup_units_added_before_migrateTo_witness :
  exists before,
    events (sample_world ["1.0"; "1.1"] false)
           (sample_argv "migrate" (VNum one) VUndefined (VBool true))
    = (before ++ [MigratorMigrateTo (VNum one)])%list
    /\ added before
       = [ {| version := VUndefined; name := VStr "/app/migrations/1.0" |};
           {| version := VUndefined; name := VStr "/app/migrations/1.1" |} ]
    /\ migrated_to before = [].
Proof.
  exact (with_backup_units_added_before_migrateTo
           (sample_world ["1.0"; "1.1"] false)
           (sample_argv "migrate" (VNum one) VUndefined (VBool true))
           eq_refl eq_refl eq_refl eq_refl).
Defined.

(** X9. With backups off, a [migrate] run that passes the guard calls
    [migrateTo] before it hands any unit to [migrator.add]: all the units
    follow the call, in the order of the listing. *)
Theorem without_backup_migrateTo_before_units (w : World) (argv : Argv) :
  strict_eq (command argv) (VStr "migrate") = true ->
  unknown_version argv (versions_of w argv) = false ->
  ToBoolean (backup (config w argv)) = false ->
  exists before after,
    events w argv = (before ++ MigratorMigrateTo (target_spec argv) :: after)%list
    /\ added before = []
    /\ migrated_to before = []
    /\ migrated_to after = []
    /\ added after
       = map (fun v => require_default w (module_path (config w argv) v))
             (normalized (versions_of w argv)).
Proof.
  intros C G B. pose proof (events_without_backup w argv C G B) as E.
  exists (prelude w (config w argv)
          ++ MigratorConfig (config w argv)
             :: requires (config w argv) (normalized (versions_of w argv)))%list.
  exists (adds w (config w argv) (normalized (versions_of w argv))).
  split; [|split; [|split; [|split]]].
  - rewrite E. rewrite <- List.app_assoc. reflexivity.
  - apply added_none. quiet.
  - apply migrated_to_none. quiet.
  - apply migrated_to_none. quiet.
  - apply added_adds.
Qed.

Lemma without_backup_migrateTo_before_units_witness :
  exists before after,
    events (sample_world ["1.1"; "1.0"] false)
           (sample_argv "migrate" (VNum one) (VBool true) VUndefined)
    = (before ++ MigratorMigrateTo (VStr "1,rerun") :: after)%list
    /\ added before = []
    /\ migrated_to before = []
    /\ migrated_to after = []
    /\ added after
       = [ {| version := VUndefined; name := VStr "/app/migrations/1.1" |};
           {| version := VUndefined; name := VStr "/app/migrations/1.0" |} ].
Proof.
  exact (without_backup_migrateTo_before_units
           (sample_world ["1.1"; "1.0"] false)
           (sample_argv "migrate" (VNum one) (VBool true) VUndefined)
           eq_refl eq_refl eq_refl).
Defined.

(** X10. Backups are on when the command line or the config file asks
    for them: [argv.backup || configFile.backup || false] takes a false
    command-line value for an absent one, so a config file that turns backups
    on cannot be overruled from the command line, and a [migrate] run that
    passes the guard then issues its dump command. *)
Theorem config_file_backup_stays_on (w : World) (argv : Argv) :
  ToBoolean (backup (config w argv))
  = ToBoolean (a_backup argv) || ToBoolean (cf_backup (configFile w argv))
  /\ (ToBoolean (cf_backup (configFile w argv)) = true ->
      strict_eq (command argv) (VStr "migrate") = true ->
      unknown_version argv (versions_of w argv) = false ->
      In (Exec (backupCmd w (config w argv) (stored_version w))) (events w argv)).
Proof.
  assert (B : ToBoolean (backup (config w argv))
              = ToBoolean (a_backup argv) || ToBoolean (cf_backup (configFile w argv))).
  { cbn [config backup]. unfold or.
    destruct (ToBoolean (a_backup argv)) eqn:A.
    - rewrite A. exact A.
    - destruct (ToBoolean (cf_backup (configFile w argv))) eqn:F; [exact F|reflexivity]. }
  split; [exact B|].
  intros F C G. rewrite F, orb_true_r in B.
  rewrite (events_backup w argv C G B).
  apply in_or_app. right. left. reflexivity.
Qed.

Lemma config_file_backup_stays_on_witness :
  In (Exec "mongodump --host localhost:27017 --archive=/app/migrations/backups/1.0_1700000000000.gz --gzip --db underbase_test")
     (events (backup_file_world ["1.0"]) (config_argv (VNum one))).
Proof.
  exact (proj2 (config_file_backup_stays_on
                  (backup_file_world ["1.0"]) (config_argv (VNum one)))
               eq_refl eq_refl eq_refl).
Defined.

(** ** Names and versions *)

(** X11. Every name the discovery keeps comes from the listing and has
    exactly three code units, the first and the last a digit: an entry such
    as [10.0] or [1.10] is never taken for a version. *)
Theorem discovered_names_have_three_units (entries : list string) (v : string) :
  In v (discover entries) ->
  In v entries
  /\ String.length v = 3%nat
  /\ all_digits (take 1 v) = true
  /\ all_digits (drop 2 v) = true.
Proof.
  intros H. apply discover_spec in H as [H D]. split; [exact H|].
  destruct v as [|a [|c [|b [|x r]]]]; try discriminate D.
  simpl in D. apply andb_prop in D as [D Hb]. apply andb_prop in D as [Ha _].
  simpl. rewrite Ha, Hb. repeat split; reflexivity.
Qed.

Lemma discovered_names_have_three_units_witness :
  ~ In "10.0" (discover ["10.0"; "1.0"; "1.10"]).
Proof.
  intros H.
  destruct (discovered_names_have_three_units ["10.0"; "1.0"; "1.10"] "10.0" H)
    as (_ & L & _).
  discriminate L.
Defined.

(** X12. An entry named by one digit, a literal dot and one digit is
    always kept, and its version keeps the name of the entry. *)
Theorem dotted_names_are_discovered (entries : list string) (v : string) :
  In v entries -> dotted v = true ->
  In v (discover entries) /\ In v (normalized (discover entries)).
Proof.
  intros H D.
  assert (K : In v (discover entries)).
  { apply discover_spec. split; [exact H | apply dotted_digit_any_digit; exact D]. }
  split; [exact K|].
  unfold normalized, versionsArray. rewrite map_map. apply in_map_iff.
  exists v. split; [apply dotted_kept; exact D | exact K].
Qed.

Lemma dotted_names_are_discovered_witness :
  In "2.5" (discover ["README.md"; "2.5"])
  /\ In "2.5" (normalized (discover ["README.md"; "2.5"])).
Proof.
  apply (dotted_names_are_discovered ["README.md"; "2.5"] "2.5").
  - right. left. reflexivity.
  - reflexivity.
Defined.

Lemma accepted_reads_back (s : string) : digit_any_digit s = true -> reads_back s = true.
Proof. apply for_all_names_spec. vm_compute. reflexivity. Qed.

Lemma num_eqb_refl (m e : Z) : num_eqb (Dec m e) (Dec m e) = true.
Proof.
  simpl. rewrite Z.leb_refl, Z.sub_diag. simpl. apply Z.eqb_eq. lia.
Qed.

(** X13. A version found in the directory is never turned away by the
    guard, whether it is asked for by the name of its entry or by the number
    that name reads as: the run goes on to configure the runner. *)
Theorem discovered_version_can_be_requested (w : World) (argv : Argv) (v : string) :
  strict_eq (command argv) (VStr "migrate") = true ->
  In v (versions_of w argv) ->
  migration argv = VStr v \/ migration argv = VNum (parseFloat_string v) ->
  unknown_version argv (versions_of w argv) = false
  /\ In (MigratorConfig (config w argv)) (events w argv).
Proof.
  intros C V M.
  assert (D : digit_any_digit v = true).
  { apply discover_spec in V. apply V. }
  assert (Q : num_eqb (parseFloat_string v) (parseFloat (migration argv)) = true).
  { destruct M as [M|M]; rewrite M.
    - unfold parseFloat. cbn [ToString].
      pose proof (accepted_plain v D) as P. unfold plain_version in P.
      apply andb_prop in P as [R _].
      destruct (parseFloat_string v); try discriminate R. apply num_eqb_refl.
    - pose proof (accepted_reads_back v D) as R. unfold reads_back in R.
      apply andb_prop in R as [R _]. apply andb_prop in R as [R _]. exact R. }
  assert (G : unknown_version argv (versions_of w argv) = false).
  { destruct (unknown_version argv (versions_of w argv)) eqn:U; [|reflexivity].
    apply unknown_version_spec in U as [_ U].
    rewrite (U v V) in Q. discriminate Q. }
  split; [exact G|].
  rewrite (events_migrate w argv C). apply in_or_app. right.
  unfold migrate_trace. rewrite G. left. reflexivity.
Qed.

Lemma discovered_version_can_be_requested_witness :
  unknown_version (sample_argv "migrate" (VStr "1a0") VUndefined VUndefined)
                  (versions_of (sample_world ["1a0"; "1.1"] false)
                     (sample_argv "migrate" (VStr "1a0") VUndefined VUndefined))
  = false
  /\ unknown_version (sample_argv "migrate" (VNum (Dec 11 (-1))) VUndefined VUndefined)
                     (versions_of (sample_world ["1a0"; "1.1"] false)
                        (sample_argv "migrate" (VNum (Dec 11 (-1))) VUndefined VUndefined))
     = false.
Proof.
  split.
  - refine (proj1 (discovered_version_can_be_requested
                     (sample_world ["1a0"; "1.1"] false)
                     (sample_argv "migrate" (VStr "1a0") VUndefined VUndefined)
                     "1a0" eq_refl _ (or_introl eq_refl))).
    vm_compute. left. reflexivity.
  - refine (proj1 (discovered_version_can_be_requested
                     (sample_world ["1a0"; "1.1"] false)
                     (sample_argv "migrate" (VNum (Dec 11 (-1))) VUndefined VUndefined)
                     "1.1" eq_refl _ (or_intror eq_refl))).
    vm_compute. right. left. reflexivity.
Defined.

(** X14. Writing a discovered version with one fractional digit loses
    nothing: the normal form reads back as the same number, and normalising
    it again changes nothing. *)
Theorem normal_form_reads_back (entries : list string) (v : string) :
  In v (discover entries) ->
  num_eqb (parseFloat_string (toFixed1 (parseFloat_string v))) (parseFloat_string v)
  = true
  /\ toFixed1 (parseFloat_string (toFixed1 (parseFloat_string v)))
     = toFixed1 (parseFloat_string v).
Proof.
  intros H. apply discover_spec in H as [_ D].
  pose proof (accepted_reads_back v D) as R. unfold reads_back in R.
  apply andb_prop in R as [R I]. apply andb_prop in R as [_ R].
  split; [exact R | apply String.eqb_eq; exact I].
Qed.

Lemma normal_form_reads_back_witness :
  num_eqb (parseFloat_string (toFixed1 (parseFloat_string "1e5"))) (parseFloat_string "1e5")
  = true
  /\ toFixed1 (parseFloat_string (toFixed1 (parseFloat_string "1e5")))
     = toFixed1 (parseFloat_string "1e5").
Proof.
  apply (normal_form_reads_back ["1e5"] "1e5"). vm_compute. left. reflexivity.
Defined.

(** ** What the backup reports *)

Lemma prelude_logs_info (w : World) (config : Config) (l : string) (r : list string) :
  In (ConsoleLog (l :: r)) (prelude w config) -> l = "[info]".
Proof.
  unfold prelude, logger. intros H. apply in_app_or in H.
  destruct H as [H|H];
    [destruct (existsSync w [] (migrationsDir config))
    |destruct (existsSync w (made1 w config) (backupsDir config))];
    simpl in H;
    repeat match goal with
           | H : _ \/ _ |- _ => destruct H as [H|H]
           | H : False |- _ => destruct H
           | H : Mkdirp _ = ConsoleLog _ |- _ => discriminate H
           | H : ConsoleLog _ = ConsoleLog _ |- _ => injection H as <- _
           end; reflexivity.
Qed.

(** X15. "Backup created" is printed only by a [migrate] run whose dump
    command was issued and succeeded, and names the archive of that command;
    [console.error] is reached only after a dump that failed, and such a run
    never calls [migrateTo]. *)
Theorem backup_outcome_is_reported (w : World) (argv : Argv) :
  (forall msg, In (ConsoleLog ["[success]"; msg]) (events w argv) ->
     exec_fails w (backupCmd w (config w argv) (stored_version w)) = false
     /\ msg = "Backup created : " ++ backupFile w (stored_version w)
     /\ In (Exec (backupCmd w (config w argv) (stored_version w))) (events w argv))
  /\ (In ConsoleError (events w argv) ->
      exec_fails w (backupCmd w (config w argv) (stored_version w)) = true
      /\ In (Exec (backupCmd w (config w argv) (stored_version w))) (events w argv)
      /\ migrated_to (events w argv) = []).
Proof.
  destruct (run_main w argv) as [E _].
  assert (K : forall e,
             (e = ConsoleError \/ exists msg, e = ConsoleLog ["[success]"; msg]) ->
             In e (events w argv) ->
             strict_eq (command argv) (VStr "migrate") = true
             /\ unknown_version argv (versions_of w argv) = false
             /\ ToBoolean (backup (config w argv)) = true
             /\ (if exec_fails w (backupCmd w (config w argv) (stored_version w))
                 then e = ConsoleError
                 else e = ConsoleLog ["[success]";
                                      ("Backup created : "
                                       ++ backupFile w (stored_version w))%string])).
  { intros e K H. rewrite E in H. unfold main_trace in H.
    destruct (negb (ToBoolean (command argv))).
    { destruct K as [->|[msg ->]]; hunt H. }
    apply in_app_or in H as [H|H].
    { destruct K as [->|[msg ->]].
      - apply in_prelude in H as [[x H]|[x H]]; discriminate H.
      - apply prelude_logs_info in H. discriminate H. }
    destruct (strict_eq (command argv) (VStr "migrate")).
    - unfold migrate_trace, backup_trace in H.
      destruct (unknown_version argv (versions_of w argv));
        destruct (ToBoolean (backup (config w argv)));
        destruct (exec_fails w (backupCmd w (config w argv) (stored_version w)));
        destruct K as [->|[msg ->]]; hunt H;
        repeat split; try reflexivity; symmetry; exact H.
    - destruct (strict_eq (command argv) (VStr "list"));
        [|destruct (strict_eq (command argv) (VStr "status"))];
        destruct K as [->|[msg ->]]; hunt H. }
  assert (X : strict_eq (command argv) (VStr "migrate") = true ->
              unknown_version argv (versions_of w argv) = false ->
              ToBoolean (backup (config w argv)) = true ->
              In (Exec (backupCmd w (config w argv) (stored_version w))) (events w argv)).
  { intros C G B. rewrite (events_backup w argv C G B).
    apply in_or_app. right. left. reflexivity. }
  split.
  - intros msg H.
    destruct (K _ (or_intror (ex_intro _ msg eq_refl)) H) as (C & G & B & F).
    destruct (exec_fails w (backupCmd w (config w argv) (stored_version w)));
      [discriminate F|].
    injection F as ->.
    split; [reflexivity|]. split; [reflexivity|]. apply X; assumption.
  - intros H. destruct (K _ (or_introl eq_refl) H) as (C & G & B & F).
    destruct (exec_fails w (backupCmd w (config w argv) (stored_version w))) eqn:D;
      [|discriminate F].
    split; [reflexivity|]. split; [apply X; assumption|].
    pose proof (events_backup w argv C G B) as T. rewrite D in T. rewrite T.
    apply migrated_to_none. quiet.
Qed.

Lemma backup_outcome_is_reported_witness :
  exec_fails (sample_world ["1.0"] true)
    (backupCmd (sample_world ["1.0"] true)
       (config (sample_world ["1.0"] true)
               (sample_argv "migrate" (VNum one) VUndefined (VBool true)))
       (stored_version (sample_world ["1.0"] true)))
  = true
  /\ migrated_to (events (sample_world ["1.0"] true)
                         (sample_argv "migrate" (VNum one) VUndefined (VBool true)))
     = [].
Proof.
  destruct (proj2 (backup_outcome_is_reported
                     (sample_world ["1.0"] true)
                     (sample_argv "migrate" (VNum one) VUndefined (VBool true))))
    as (F & _ & M).
  - vm_compute. do 7 right. left. reflexivity.
  - split; [exact F | exact M].
Defined.

(** ** The sample migration unit *)

Section Documents.
Import Migration.

Lemma field_unset_same (k : string) (d : document) : field k (unset_field k d) = None.
Proof.
  induction d as [|[k' v] d IH]; [reflexivity|].
  simpl. destruct (String.eqb k' k) eqn:E; [exact IH|].
  simpl. rewrite E. exact IH.
Qed.

Lemma field_unset_other (k k' : string) (d : document) :
  k' <> k -> field k' (unset_field k d) = field k' d.
Proof.
  intros N. induction d as [|[k0 v] d IH]; [reflexivity|].
  simpl. destruct (String.eqb k0 k) eqn:E.
  - apply String.eqb_eq in E. subst k0.
    replace (String.eqb k k') with false
      by (symmetry; apply String.eqb_neq; congruence).
    exact IH.
  - simpl. rewrite IH. reflexivity.
Qed.

Lemma unset_unset (k : string) (d : document) :
  unset_field k (unset_field k d) = unset_field k d.
Proof.
  induction d as [|[k' v] d IH]; [reflexivity|].
  simpl. destruct (String.eqb k' k) eqn:E; [exact IH|].
  simpl. rewrite E, IH. reflexivity.
Qed.

Lemma unset_app (k : string) (d r : document) :
  unset_field k (d ++ r)%list = (unset_field k d ++ unset_field k r)%list.
Proof.
  induction d as [|[k' v] d IH]; [reflexivity|].
  simpl. destruct (String.eqb k' k); [exact IH|].
  simpl. rewrite IH. reflexivity.
Qed.

Lemma unset_overwrite (k : string) (v : value) (d : document) :
  unset_field k (overwrite k v d) = unset_field k d.
Proof.
  induction d as [|[k' v'] d IH]; [reflexivity|].
  simpl. destruct (String.eqb k' k) eqn:E; simpl; rewrite E; [reflexivity|].
  rewrite IH. reflexivity.
Qed.

Lemma unset_set (k : string) (v : value) (d : document) :
  unset_field k (set_field k v d) = unset_field k d.
Proof.
  unfold set_field. destruct (has_field k d).
  - apply unset_overwrite.
  - rewrite unset_app. simpl. rewrite String.eqb_refl. apply List.app_nil_r.
Qed.

Lemma field_app_absent (k k' : string) (v : value) (d : document) :
  has_field k d = false ->
  field k' (d ++ [(k, v)])%list = if String.eqb k k' then Some v else field k' d.
Proof.
  induction d as [|[k0 v0] d IH]; intros H; [reflexivity|].
  simpl in H. apply orb_false_elim in H as [H0 H]. simpl.
  destruct (String.eqb k0 k') eqn:E.
  - apply String.eqb_eq in E. subst k0. rewrite String.eqb_sym, H0. reflexivity.
  - apply IH. exact H.
Qed.

Lemma field_overwrite (k k' : string) (v : value) (d : document) :
  has_field k d = true ->
  field k' (overwrite k v d) = if String.eqb k k' then Some v else field k' d.
Proof.
  induction d as [|[k0 v0] d IH]; intros H; [discriminate H|].
  simpl in H. simpl. destruct (String.eqb k0 k) eqn:E.
  - apply String.eqb_eq in E. subst k0. simpl.
    destruct (String.eqb k k'); reflexivity.
  - simpl in H. simpl. destruct (String.eqb k0 k') eqn:E'.
    + apply String.eqb_eq in E'. subst k0. rewrite String.eqb_sym, E. reflexivity.
    + apply IH. exact H.
Qed.

Lemma field_set (k k' : string) (v : value) (d : document) :
  field k' (set_field k v d) = if String.eqb k k' then Some v else field k' d.
Proof.
  unfold set_field. destruct (has_field k d) eqn:H.
  - apply field_overwrite. exact H.
  - apply field_app_absent. exact H.
Qed.

Lemma has_field_set (k : string) (v : value) (d : document) :
  has_field k (set_field k v d) = true.
Proof.
  unfold set_field. destruct (has_field k d) eqn:H.
  - induction d as [|[k0 v0] d IH]; [discriminate H|].
    simpl in H. simpl. destruct (String.eqb k0 k) eqn:E; simpl; rewrite E;
      [reflexivity|]. apply IH. exact H.
  - induction d as [|[k0 v0] d IH]; simpl.
    + rewrite String.eqb_refl. reflexivity.
    + simpl in H. apply orb_false_elim in H as [H0 H]. rewrite H0. apply IH. exact H.
Qed.

Lemma overwrite_overwrite (k : string) (v : value) (d : document) :
  overwrite k v (overwrite k v d) = overwrite k v d.
Proof.
  induction d as [|[k0 v0] d IH]; [reflexivity|].
  simpl. destruct (String.eqb k0 k) eqn:E; simpl; rewrite E; [reflexivity|].
  rewrite IH. reflexivity.
Qed.

Lemma overwrite_app_absent (k : string) (v : value) (d : document) :
  has_field k d = false ->
  overwrite k v (d ++ [(k, v)])%list = (d ++ [(k, v)])%list.
Proof.
  induction d as [|[k0 v0] d IH]; intros H; simpl.
  - rewrite String.eqb_refl. reflexivity.
  - simpl in H. apply orb_false_elim in H as [H0 H]. rewrite H0, IH by exact H.
    reflexivity.
Qed.

Lemma set_set (k : string) (v : value) (d : document) :
  set_field k v (set_field k v d) = set_field k v d.
Proof.
  unfold set_field at 1. rewrite has_field_set.
  unfold set_field. destruct (has_field k d) eqn:H.
  - apply overwrite_overwrite.
  - apply overwrite_app_absent. exact H.
Qed.

(** X16. [up] prints "up users" and drops [isAdmin] from every document
    of [users]: afterwards no user has the field, every other field of every
    user is as it was, no document is added or lost, and the other
    collections are untouched. *)
Theorem up_drops_isAdmin (db : store) :
  fst (up db) = ["up users"]
  /\ (forall d, In d (snd (up db) "users") -> field "isAdmin" d = None)
  /\ (forall i d, nth_error (db "users") i = Some d ->
        exists d', nth_error (snd (up db) "users") i = Some d'
                   /\ forall k, k <> "isAdmin" -> field k d' = field k d)
  /\ List.length (snd (up db) "users") = List.length (db "users")
  /\ (forall c, c <> "users" -> snd (up db) c = db c).
Proof.
  unfold up, updateMany. cbn [fst snd]. rewrite String.eqb_refl.
  split; [reflexivity|]. split; [|split; [|split]].
  - intros d H. apply in_map_iff in H as (d0 & <- & _). apply field_unset_same.
  - intros i d H. exists (unset_field "isAdmin" d). split.
    + rewrite nth_error_map, H. reflexivity.
    + intros k N. apply field_unset_other. exact N.
  - apply List.length_map.
  - intros c N. apply String.eqb_neq in N. rewrite N. reflexivity.
Qed.

Lemma up_drops_isAdmin_witness :
  exists d', nth_error (snd (up sample_users) "users") 0 = Some d'
             /\ field "isAdmin" d' = None
             /\ field "name" d' = Some (VStr "ada").
Proof.
  destruct (up_drops_isAdmin sample_users) as (_ & A & B & _).
  destruct (B O _ eq_refl) as (d' & N & K).
  exists d'. split; [exact N|]. split.
  - apply A. apply (nth_error_In _ _ N).
  - rewrite (K "name") by discriminate. reflexivity.
Defined.

(** X17. [down] prints "down users" and sets [isAdmin] to [false] on
    every document of [users], whether the field was there or not: every
    other field of every user is as it was, no document is added or lost, and
    the other collections are untouched. *)
Theorem down_sets_isAdmin_false (db : store) :
  fst (down db) = ["down users"]
  /\ (forall d, In d (snd (down db) "users") -> field "isAdmin" d = Some (VBool false))
  /\ (forall i d, nth_error (db "users") i = Some d ->
        exists d', nth_error (snd (down db) "users") i = Some d'
                   /\ forall k, k <> "isAdmin" -> field k d' = field k d)
  /\ List.length (snd (down db) "users") = List.length (db "users")
  /\ (forall c, c <> "users" -> snd (down db) c = db c).
Proof.
  unfold down, updateMany. cbn [fst snd]. rewrite String.eqb_refl.
  split; [reflexivity|]. split; [|split; [|split]].
  - intros d H. apply in_map_iff in H as (d0 & <- & _).
    rewrite field_set, String.eqb_refl. reflexivity.
  - intros i d H. exists (set_field "isAdmin" (VBool false) d). split.
    + rewrite nth_error_map, H. reflexivity.
    + intros k N. rewrite field_set.
      replace (String.eqb "isAdmin" k) with false
        by (symmetry; apply String.eqb_neq; congruence).
      reflexivity.
  - apply List.length_map.
  - intros c N. apply String.eqb_neq in N. rewrite N. reflexivity.
Qed.

Lemma down_sets_isAdmin_false_witness :
  exists d', nth_error (snd (down sample_users) "users") 1 = Some d'
             /\ field "isAdmin" d' = Some (VBool false)
             /\ field "name" d' = Some (VStr "bob").
Proof.
  destruct (down_sets_isAdmin_false sample_users) as (_ & A & B & _).
  destruct (B 1%nat _ eq_refl) as (d' & N & K).
  exists d'. split; [exact N|]. split.
  - apply A. apply (nth_error_In _ _ N).
  - rewrite (K "name") by discriminate. reflexivity.
Defined.

(** X18. The two directions do not undo each other.  Rolling [up] back
    with [down] leaves every user with [isAdmin] false, whatever the field
    held before [up]; applying [up] after [down], or twice, leaves the same
    documents as applying it once, and [down] applied twice is [down]. *)
Theorem down_does_not_restore (db : store) :
  (forall d, In d (snd (down (snd (up db))) "users") ->
     field "isAdmin" d = Some (VBool false))
  /\ (forall c, snd (up (snd (down db))) c = snd (up db) c)
  /\ (forall c, snd (up (snd (up db))) c = snd (up db) c)
  /\ (forall c, snd (down (snd (down db))) c = snd (down db) c).
Proof.
  split; [|split; [|split]].
  - intros d H. unfold down, updateMany in H. cbn [snd] in H.
    rewrite String.eqb_refl in H. apply in_map_iff in H as (d0 & <- & _).
    rewrite field_set, String.eqb_refl. reflexivity.
  - intros c. unfold up, down, updateMany. cbn [snd].
    destruct (String.eqb c "users"); [|reflexivity].
    rewrite map_map. apply map_ext. intros d. apply unset_set.
  - intros c. unfold up, updateMany. cbn [snd].
    destruct (String.eqb c "users"); [|reflexivity].
    rewrite map_map. apply map_ext. intros d. apply unset_unset.
  - intros c. unfold down, updateMany. cbn [snd].
    destruct (String.eqb c "users"); [|reflexivity].
    rewrite map_map. apply map_ext. intros d. apply set_set.
Qed.

Lemma down_does_not_restore_witness :
  field "isAdmin" [("name", VStr "ada"); ("isAdmin", VBool true)] = Some (VBool true)
  /\ forall d, In d (snd (down (snd (up sample_users))) "users") ->
               field "isAdmin" d = Some (VBool false).
Proof.
  split; [reflexivity|].
  exact (proj1 (down_does_not_restore sample_users)).
Defined.

End Documents.
